(** * LoadTester: the open-loop load generator of the benchmarking suite

    A shallow embedding of the [LoadTester] class of the custom Node.js load
    tester (constructor, [makeRequest], [runWarmup], [runTest],
    [calculateStats], [percentile], [runFullBenchmark], [stop]) and the
    properties of its request classification, statistics and phase
    sequencing.

    Conventions of the embedding.
    - A JavaScript number is a [number]: a finite value, an infinity or NaN.
      Finite values are exact rationals kept in lowest terms; binary64
      rounding and the sign of zero are not modelled.
    - Counters that only ever start at 0 and are incremented are [nat].
    - The world outside the class (the two clocks, [Math.random], the HTTP
      transport, a caller of [stop]) is an explicit trace of events that the
      methods consume; a method that is still suspended at an [await] when
      its trace ends is reported as [Suspended].
    - [console.log] output carries no state and is left out. *)

From Stdlib Require Import ZArith QArith Qround Qreduction Qabs.
From Stdlib Require Import List String Bool Arith Lia Lqa.
From Stdlib Require Import Sorted Permutation.
From Stdlib Require DecimalString.
Import ListNotations.

Local Open Scope Z_scope.

(** ** JavaScript numbers *)

Inductive number : Type :=
| Fin (q : Q)
| PInf
| NInf
| NaN.

Module Num.

Definition of_Q (q : Q) : number := Fin (Qred q).
Definition of_Z (z : Z) : number := Fin (inject_Z z).
Definition of_nat (n : nat) : number := of_Z (Z.of_nat n).

Definition zero : number := of_Z 0.

Definition is_zero (q : Q) : bool := Qeq_bool q 0.
Definition is_neg (q : Q) : bool := negb (Qle_bool 0 q).

Definition neg (a : number) : number :=
  match a with
  | Fin q => of_Q (- q)
  | PInf => NInf
  | NInf => PInf
  | NaN => NaN
  end.

(** [a + b] *)
Definition add (a b : number) : number :=
  match a, b with
  | NaN, _ | _, NaN => NaN
  | Fin x, Fin y => of_Q (x + y)
  | PInf, NInf | NInf, PInf => NaN
  | PInf, _ | _, PInf => PInf
  | NInf, _ | _, NInf => NInf
  end.

(** [a - b] *)
Definition sub (a b : number) : number := add a (neg b).

Definition signed_inf (negative : bool) : number :=
  if negative then NInf else PInf.

(** [a * b] *)
Definition mul (a b : number) : number :=
  match a, b with
  | NaN, _ | _, NaN => NaN
  | Fin x, Fin y => of_Q (x * y)
  | Fin x, PInf | PInf, Fin x =>
      if is_zero x then NaN else signed_inf (is_neg x)
  | Fin x, NInf | NInf, Fin x =>
      if is_zero x then NaN else signed_inf (negb (is_neg x))
  | PInf, PInf | NInf, NInf => PInf
  | PInf, NInf | NInf, PInf => NInf
  end.

(** [a / b]; a zero divisor is taken as +0. *)
Definition div (a b : number) : number :=
  match a, b with
  | NaN, _ | _, NaN => NaN
  | Fin x, Fin y =>
      if is_zero y
      then (if is_zero x then NaN else signed_inf (is_neg x))
      else of_Q (x / y)
  | Fin _, (PInf | NInf) => zero
  | PInf, Fin y => signed_inf (is_neg y)
  | NInf, Fin y => signed_inf (negb (is_neg y))
  | (PInf | NInf), (PInf | NInf) => NaN
  end.

(** [a < b] *)
Definition ltb (a b : number) : bool :=
  match a, b with
  | NaN, _ | _, NaN => false
  | Fin x, Fin y => negb (Qle_bool y x)
  | NInf, NInf | PInf, _ | _, NInf => false
  | NInf, _ | _, PInf => true
  end.

(** [a >= b] *)
Definition geb (a b : number) : bool :=
  match a, b with
  | NaN, _ | _, NaN => false
  | Fin x, Fin y => Qle_bool y x
  | PInf, _ | _, NInf => true
  | NInf, _ | _, PInf => false
  end.

End Num.

(** [x || d] on an optional finite number: [undefined], a missing field and
    [0] are falsy, every other finite number is truthy. *)
Definition or_default (x : option Q) (d : Q) : Q :=
  match x with
  | Some q => if Num.is_zero q then d else q
  | None => d
  end.

(** ** Configuration and request scenarios *)

Record Config : Type := {
  baseUrl : string;
  duration : Q;            (* seconds *)
  warmupDuration : Q;      (* seconds *)
  warmupTPS : Q;
  timeout : option Q       (* milliseconds; absent unless the caller sets it *)
}.

(** The defaults of the constructor, before [...config] is spread over them. *)
Definition defaultConfig : Config :=
  {| baseUrl := "http://localhost:8080";
     duration := 60;
     warmupDuration := 180;
     warmupTPS := 1000;
     timeout := None |}.

Inductive Method : Type := GET | POST.

(** The literal request bodies of the scenario tables; [id] holds the value
    [Math.random()] returned when the table was built. *)
Inductive Payload : Type :=
| WarmupPayload (warmup : bool) (id : Q)
| TestPayload (test : string) (id : Q).

Record Scenario : Type := {
  endpoint : string;
  method : Method;
  weight : Z;
  data : option Payload
}.

(** ** One request: [makeRequest] *)

(** The object passed to [resolve]. *)
Record RequestResult : Type := {
  statusCode : Z;
  responseTime : Q;        (* milliseconds *)
  body : string;
  success : bool
}.

(** What a rejected request promise carries: the object literal passed to
    [reject], or the exception the promise executor threw ([new URL] on a
    malformed address, [client.request] on an invalid option). *)
Inductive Rejection : Type :=
| Failure (error : string) (responseTime : Q) (success : bool)
| Exception (message : string).

(** [error.responseTime]: an [Error] object has no such field. *)
Definition rejectionResponseTime (e : Rejection) : option Q :=
  match e with
  | Failure _ rt _ => Some rt
  | Exception _ => None
  end.

Inductive Settlement : Type :=
| Resolved (result : RequestResult)
| Rejected (error : Rejection).

(** A promise settles once; until then it remembers the [startTime] its
    callbacks closed over. *)
Inductive Promise : Type :=
| Pending (startTime : Q)
| Settled (s : Settlement).

(** What the transport reports for a request that was sent. [now] is the
    reading of [performance.now()] taken inside the callback. *)
Inductive TransportEvent : Type :=
| ResponseEnd (statusCode : Z) (body : string) (now : Q)   (* res.on('end') *)
| RequestError (message : string) (now : Q)                (* req.on('error') *)
| RequestTimeout.                                          (* req.on('timeout') *)

(** How the synchronous part of the promise executor ends: it reads
    [performance.now()] and sends the request, or it throws before that. *)
Inductive ExecutorOutcome : Type :=
| Started (startTime : Q)
| Threw (message : string).

(** [res.statusCode >= 200 && res.statusCode < 300] *)
Definition isSuccessStatus (statusCode : Z) : bool :=
  (200 <=? statusCode) && (statusCode <? 300).

(** The three callbacks registered by [makeRequest]. *)
Definition onEvent (cfg : Config) (startTime : Q) (ev : TransportEvent) : Settlement :=
  match ev with
  | ResponseEnd code text now =>
      Resolved {| statusCode := code;
                  responseTime := Qred (now - startTime);
                  body := text;
                  success := isSuccessStatus code |}
  | RequestError message now =>
      Rejected (Failure message (Qred (now - startTime)) false)
  | RequestTimeout =>
      Rejected (Failure "Request timeout" (or_default (timeout cfg) 30000) false)
  end.

(** [makeRequest(endpoint, method, data)]: the promise as it stands when the
    call returns. An exception inside the executor rejects it at once. *)
Definition makeRequest (cfg : Config) (endpoint : string) (method : Method)
    (data : option Payload) (exec : ExecutorOutcome) : Promise :=
  match exec with
  | Started startTime => Pending startTime
  | Threw message => Settled (Rejected (Exception message))
  end.

(** A transport event reaching the promise: the first one settles it, later
    calls of [resolve] or [reject] have no effect. *)
Definition deliver (cfg : Config) (p : Promise) (ev : TransportEvent) : Promise :=
  match p with
  | Pending startTime => Settled (onEvent cfg startTime ev)
  | Settled _ => p
  end.

Definition isSettled (p : Promise) : bool :=
  match p with
  | Pending _ => false
  | Settled _ => true
  end.

(** ** The tester object *)

(** The fields [calculateStats] returns. [minResponseTime] and the others
    are array reads, [None] standing for [undefined]. *)
Record Stats : Type := {
  avgResponseTime : number;
  minResponseTime : option Q;
  maxResponseTime : option Q;
  p50ResponseTime : option Q;
  p95ResponseTime : option Q;
  p99ResponseTime : option Q
}.

Module Phase.
(** The record [runTest] builds; [stats] holds the fields spread in by
    [...stats]. *)
Record Result : Type := {
  testName : string;
  targetTPS : Q;
  actualTPS : number;
  totalRequests : nat;
  errorCount : nat;
  errorRate : number;
  stats : Stats
}.
End Phase.

Record LoadTester : Type := {
  config : Config;
  results : list Phase.Result;
  isRunning : bool;
  requestCount : nat;
  errorCount : nat;
  responseTimes : list Q
}.

(** [new LoadTester(config)] *)
Definition newLoadTester (cfg : Config) : LoadTester :=
  {| config := cfg;
     results := [];
     isRunning := false;
     requestCount := 0;
     errorCount := 0;
     responseTimes := [] |}.

(** [stop()] *)
Definition stop (t : LoadTester) : LoadTester :=
  {| config := config t;
     results := results t;
     isRunning := false;
     requestCount := requestCount t;
     errorCount := errorCount t;
     responseTimes := responseTimes t |}.

(** ** Statistics *)

(** [arr[i]] for an integer [i]. *)
Definition at_index {A : Type} (arr : list A) (i : Z) : option A :=
  if i <? 0 then None else nth_error arr (Z.to_nat i).

Definition arrayLength (arr : list Q) : Z := Z.of_nat (List.length arr).

(** [percentile(p)] *)
Definition percentile (t : LoadTester) (p : Q) : option Q :=
  let n := arrayLength (responseTimes t) in
  let index := Qceiling ((p / 100) * inject_Z n) - 1 in
  at_index (responseTimes t) (Z.max 0 (Z.min index (n - 1))).

(** [this.responseTimes.reduce((a, b) => a + b, 0)] *)
Definition sumOf (arr : list Q) : Q := fold_left Qplus arr 0%Q.

(** [calculateStats()] *)
Definition calculateStats (t : LoadTester) : Stats :=
  if arrayLength (responseTimes t) =? 0 then
    {| avgResponseTime := Num.zero;
       minResponseTime := Some 0%Q;
       maxResponseTime := Some 0%Q;
       p50ResponseTime := Some 0%Q;
       p95ResponseTime := Some 0%Q;
       p99ResponseTime := Some 0%Q |}
  else
    let sum := sumOf (responseTimes t) in
    let avg := Num.div (Num.of_Q sum) (Num.of_Z (arrayLength (responseTimes t))) in
    {| avgResponseTime := avg;
       minResponseTime := at_index (responseTimes t) 0;
       maxResponseTime := at_index (responseTimes t) (arrayLength (responseTimes t) - 1);
       p50ResponseTime := percentile t 50;
       p95ResponseTime := percentile t 95;
       p99ResponseTime := percentile t 99 |}.

(** [this.responseTimes.sort((a, b) => a - b)]: a stable sort by the
    comparator, [x] going before [y] unless [compareFn x y > 0]. *)
Definition compareFn (a b : Q) : Q := a - b.

Fixpoint insertSorted (x : Q) (l : list Q) : list Q :=
  match l with
  | [] => [x]
  | y :: l' =>
      if Qle_bool (compareFn x y) 0 then x :: y :: l' else y :: insertSorted x l'
  end.

Definition sortAscending (l : list Q) : list Q := fold_right insertSorted [] l.

(** ** Scenario tables *)

(** [for (let i = 0; i < scenario.weight; i++) weightedScenarios.push(scenario)],
    with [n] the number of passes still to go. *)
Fixpoint pushTimes (n : nat) (s : Scenario) (table : list Scenario) : list Scenario :=
  match n with
  | O => table
  | S n' => pushTimes n' s (table ++ [s])
  end.

(** [scenarios.forEach(scenario => ...)] over an initially empty array. *)
Definition buildWeighted (scenarios : list Scenario) : list Scenario :=
  fold_left (fun table s => pushTimes (Z.to_nat (weight s)) s table) scenarios [].

(** [Math.floor(Math.random() * weightedScenarios.length)] *)
Definition drawIndex (len : nat) (random : Q) : Z :=
  Qfloor (random * inject_Z (Z.of_nat len)).

(** [weightedScenarios[Math.floor(Math.random() * weightedScenarios.length)]] *)
Definition selectScenario (table : list Scenario) (random : Q) : option Scenario :=
  at_index table (drawIndex (List.length table) random).

(** The scenario literals of [runWarmup] and [runTest]; [id] is the value of
    the [Math.random()] call inside the literal. *)
Definition warmupScenarios (id : Q) : list Scenario :=
  [ {| endpoint := "/health"; method := GET; weight := 40; data := None |};
    {| endpoint := "/users/123"; method := GET; weight := 30; data := None |};
    {| endpoint := "/echo"; method := POST; weight := 20;
       data := Some (WarmupPayload true id) |};
    {| endpoint := "/stats"; method := GET; weight := 10; data := None |} ].

Definition testScenarios (id : Q) : list Scenario :=
  [ {| endpoint := "/health"; method := GET; weight := 30; data := None |};
    {| endpoint := "/users/123"; method := GET; weight := 25; data := None |};
    {| endpoint := "/echo"; method := POST; weight := 25;
       data := Some (TestPayload "load-test" id) |};
    {| endpoint := "/compute"; method := GET; weight := 15; data := None |};
    {| endpoint := "/stats"; method := GET; weight := 5; data := None |} ].

(** ** The pacing loop and the join

    [runWarmup] and [runTest] share one shape: a loop that polls the clock
    and fires requests without awaiting them, then [Promise.all] over the
    promises it collected. The environment drives it with events. *)

Inductive Event : Type :=
| LoopPass (condNow bodyNow : Z) (random : Q) (exec : ExecutorOutcome)
    (* one pass of the [while]: [Date.now()] read by the loop condition,
       [Date.now()] read by the body, and, used only if a request is fired,
       [Math.random()] and the outcome of the promise executor *)
| Transport (k : nat) (ev : TransportEvent)
    (* the transport reports on the request behind [requestPromises[k]] *)
| StopCall.
    (* [StopCall]: somebody calls [stop()] while the method is suspended *)

(** What one phase reads from outside. *)
Record PhaseEnv : Type := {
  startNow : Z;            (* [Date.now()] when the method starts *)
  randomId : Q;            (* [Math.random()] inside the scenario literal *)
  events : list Event
}.

(** [arr[k] = v] for an index inside the array. *)
Fixpoint replaceAt {A : Type} (k : nat) (v : A) (arr : list A) : list A :=
  match arr, k with
  | [], _ => []
  | _ :: rest, O => v :: rest
  | x :: rest, S k' => x :: replaceAt k' v rest
  end.

Section Pacing.

(** The variables the settlement handlers write to. *)
Variable State : Type.
(** The loop guard besides the clock. *)
Variable keepRunning : State -> bool.
(** The [.then(...).catch(...)] handlers chained on each request. *)
Variable onSettled : Settlement -> State -> State.
(** The effect of [stop()]. *)
Variable onStop : State -> State.

Variable cfg : Config.
Variable weightedScenarios : list Scenario.
Variable endTime : number.
Variable interval : number.

Record Pacer : Type := {
  state : State;
  requestPromises : list Promise;
  nextRequestTime : number;
  pacing : bool            (* still inside the [while] loop *)
}.

(** The body of [if (currentTime >= nextRequestTime)]. [None]: the drawn
    scenario is [undefined] and reading its [endpoint] throws. *)
Definition dispatch (pc : Pacer) (random : Q) (exec : ExecutorOutcome) : option Pacer :=
  match selectScenario weightedScenarios random with
  | None => None
  | Some scenario =>
      let p := makeRequest cfg (endpoint scenario) (method scenario) (data scenario) exec in
      Some {| state := match p with
                       | Settled s => onSettled s (state pc)
                       | Pending _ => state pc
                       end;
              requestPromises := requestPromises pc ++ [p];
              nextRequestTime := Num.add (nextRequestTime pc) interval;
              pacing := true |}
  end.

(** One evaluation of the loop condition and, if it holds, of the body. *)
Definition loopPass (pc : Pacer) (condNow bodyNow : Z) (random : Q)
    (exec : ExecutorOutcome) : option Pacer :=
  if Num.ltb (Num.of_Z condNow) endTime && keepRunning (state pc) then
    if Num.geb (Num.of_Z bodyNow) (nextRequestTime pc)
    then dispatch pc random exec
    else Some pc
  else
    Some {| state := state pc;
            requestPromises := requestPromises pc;
            nextRequestTime := nextRequestTime pc;
            pacing := false |}.

(** A transport event for request [k]: it settles a pending promise and
    runs the chained handler; on a settled promise it changes nothing. *)
Definition settle (pc : Pacer) (k : nat) (ev : TransportEvent) : Pacer :=
  match nth_error (requestPromises pc) k with
  | Some (Pending startTime) =>
      match deliver cfg (Pending startTime) ev with
      | Settled s =>
          {| state := onSettled s (state pc);
             requestPromises := replaceAt k (Settled s) (requestPromises pc);
             nextRequestTime := nextRequestTime pc;
             pacing := pacing pc |}
      | Pending _ => pc
      end
  | _ => pc
  end.

(** The loop has ended and [await Promise.all(requestPromises)] is over. *)
Definition joined (pc : Pacer) : bool :=
  negb (pacing pc) && forallb isSettled (requestPromises pc).

Definition step (pc : Pacer) (e : Event) : option Pacer :=
  if joined pc then Some pc
  else
    match e with
    | LoopPass condNow bodyNow random exec =>
        if pacing pc then loopPass pc condNow bodyNow random exec else Some pc
    | Transport k ev => Some (settle pc k ev)
    | StopCall =>
        Some {| state := onStop (state pc);
                requestPromises := requestPromises pc;
                nextRequestTime := nextRequestTime pc;
                pacing := pacing pc |}
    end.

Fixpoint runEvents (pc : Pacer) (evs : list Event) : option Pacer :=
  match evs with
  | [] => Some pc
  | e :: rest =>
      match step pc e with
      | Some pc' => runEvents pc' rest
      | None => None
      end
  end.

Definition startPacer (s : State) (startTime : Z) : Pacer :=
  {| state := s;
     requestPromises := [];
     nextRequestTime := Num.of_Z startTime;
     pacing := true |}.

End Pacing.

Arguments state {State} _.
Arguments requestPromises {State} _.
Arguments nextRequestTime {State} _.
Arguments pacing {State} _.
Arguments joined {State} _.

(** How a call of an async method ends. *)
Inductive Completion (A : Type) : Type :=
| Returns (a : A)
| Suspended              (* still waiting when the trace ends *)
| Throws.                (* the method's promise is rejected *)

Arguments Returns {A} _.
Arguments Suspended {A}.
Arguments Throws {A}.

(** ** [runTest] *)

(** The first four assignments of [runTest]. *)
Definition resetCounters (t : LoadTester) : LoadTester :=
  {| config := config t;
     results := results t;
     isRunning := true;
     requestCount := 0;
     errorCount := 0;
     responseTimes := [] |}.

(** The [.then(result => ...)] handler of [runTest]. *)
Definition recordResult (r : RequestResult) (t : LoadTester) : LoadTester :=
  {| config := config t;
     results := results t;
     isRunning := isRunning t;
     requestCount := S (requestCount t);
     errorCount := if success r then errorCount t else S (errorCount t);
     responseTimes := responseTimes t ++ [responseTime r] |}.

(** The [.catch(error => ...)] handler of [runTest]. *)
Definition recordError (e : Rejection) (t : LoadTester) : LoadTester :=
  {| config := config t;
     results := results t;
     isRunning := isRunning t;
     requestCount := S (requestCount t);
     errorCount := S (errorCount t);
     responseTimes := responseTimes t ++ [or_default (rejectionResponseTime e) 0] |}.

Definition recordSettlement (s : Settlement) (t : LoadTester) : LoadTester :=
  match s with
  | Resolved r => recordResult r t
  | Rejected e => recordError e t
  end.

(** [startTime + this.config.duration * 1000] *)
Definition phaseEnd (startTime : Z) (seconds : Q) : number :=
  Num.add (Num.of_Z startTime) (Num.mul (Num.of_Q seconds) (Num.of_Z 1000)).

(** [1000 / tps] *)
Definition intervalFor (tps : Q) : number :=
  Num.div (Num.of_Z 1000) (Num.of_Q tps).

(** [runTest] from its first line to the end of [await Promise.all]:
    [None] if it throws on the way. *)
Definition runPhase (t : LoadTester) (tps : Q) (env : PhaseEnv) : option (Pacer LoadTester) :=
  let t0 := resetCounters t in
  runEvents LoadTester isRunning recordSettlement stop
    (config t0)
    (buildWeighted (testScenarios (randomId env)))
    (phaseEnd (startNow env) (duration (config t0)))
    (intervalFor tps)
    (startPacer LoadTester t0 (startNow env))
    (events env).

(** [runTest] after the join: sort, statistics, the result record. *)
Definition summarize (t : LoadTester) (tps : Q) (name : string) : LoadTester * Phase.Result :=
  let sorted :=
    {| config := config t;
       results := results t;
       isRunning := isRunning t;
       requestCount := requestCount t;
       errorCount := errorCount t;
       responseTimes := sortAscending (responseTimes t) |} in
  let result :=
    {| Phase.testName := name;
       Phase.targetTPS := tps;
       Phase.actualTPS :=
         Num.div (Num.of_nat (requestCount sorted)) (Num.of_Q (duration (config sorted)));
       Phase.totalRequests := requestCount sorted;
       Phase.errorCount := errorCount sorted;
       Phase.errorRate :=
         Num.mul (Num.div (Num.of_nat (errorCount sorted)) (Num.of_nat (requestCount sorted)))
                 (Num.of_Z 100);
       Phase.stats := calculateStats sorted |} in
  ({| config := config sorted;
      results := results sorted ++ [result];
      isRunning := isRunning sorted;
      requestCount := requestCount sorted;
      errorCount := errorCount sorted;
      responseTimes := responseTimes sorted |},
   result).

(** [runTest(tps, testName)] *)
Definition runTest (t : LoadTester) (tps : Q) (name : string) (env : PhaseEnv)
    : Completion (LoadTester * Phase.Result) :=
  match runPhase t tps env with
  | None => Throws
  | Some pc => if joined pc then Returns (summarize (state pc) tps name) else Suspended
  end.

(** ** [runWarmup] *)

(** The tester together with the local counters of [runWarmup]. *)
Record Warmup : Type := {
  tester : LoadTester;
  warmupRequestCount : nat;
  warmupErrorCount : nat
}.

(** The handlers chained in [runWarmup]: a resolved request counts as an
    error unless [result.success], a rejected one always. *)
Definition countSettlement (s : Settlement) (w : Warmup) : Warmup :=
  {| tester := tester w;
     warmupRequestCount := S (warmupRequestCount w);
     warmupErrorCount :=
       match s with
       | Resolved r => if success r then warmupErrorCount w else S (warmupErrorCount w)
       | Rejected _ => S (warmupErrorCount w)
       end |}.

Definition stopDuringWarmup (w : Warmup) : Warmup :=
  {| tester := stop (tester w);
     warmupRequestCount := warmupRequestCount w;
     warmupErrorCount := warmupErrorCount w |}.

(** The three figures [runWarmup] prints when it is done. *)
Record WarmupReport : Type := {
  warmupTotal : nat;
  actualWarmupTPS : number;
  warmupErrorRate : number
}.

Definition warmupPhase (t : LoadTester) (env : PhaseEnv) : option (Pacer Warmup) :=
  runEvents Warmup (fun _ => true) countSettlement stopDuringWarmup
    (config t)
    (buildWeighted (warmupScenarios (randomId env)))
    (phaseEnd (startNow env) (warmupDuration (config t)))
    (intervalFor (warmupTPS (config t)))
    (startPacer Warmup
       {| tester := t; warmupRequestCount := 0; warmupErrorCount := 0 |}
       (startNow env))
    (events env).

(** [runWarmup()] *)
Definition runWarmup (t : LoadTester) (env : PhaseEnv) : Completion (LoadTester * WarmupReport) :=
  match warmupPhase t env with
  | None => Throws
  | Some pc =>
      if joined pc then
        let w := state pc in
        Returns
          (tester w,
           {| warmupTotal := warmupRequestCount w;
              actualWarmupTPS :=
                Num.div (Num.of_nat (warmupRequestCount w))
                        (Num.of_Q (warmupDuration (config (tester w))));
              warmupErrorRate :=
                Num.mul (Num.div (Num.of_nat (warmupErrorCount w))
                                 (Num.of_nat (warmupRequestCount w)))
                        (Num.of_Z 100) |})
      else Suspended
  end.

(** ** [runFullBenchmark] *)

Definition tpsLevels : list Z := [5; 10; 15; 30; 40; 100; 1000].

(** The template literal `${tps}TPS` for an integer [tps]. *)
Definition tpsLabel (tps : Z) : string :=
  (DecimalString.NilZero.string_of_int (Z.to_int tps) ++ "TPS")%string.

(** What a whole benchmark reads from outside: one environment for the
    warm-up and one for each rate of the sweep, in order. *)
Record BenchmarkEnv : Type := {
  warmupEnv : PhaseEnv;
  sweepEnvs : list PhaseEnv
}.

(** [for (const tps of tpsLevels) { await this.runTest(tps, ...); ... }].
    The cool-down between two tests only lets time pass. *)
Fixpoint sweep (t : LoadTester) (levels : list Z) (envs : list PhaseEnv)
    : Completion LoadTester :=
  match levels with
  | [] => Returns t
  | tps :: levels' =>
      match envs with
      | [] => Suspended
      | env :: envs' =>
          match runTest t (inject_Z tps) (tpsLabel tps) env with
          | Returns (t', _) => sweep t' levels' envs'
          | Suspended => Suspended
          | Throws => Throws
          end
      end
  end.

Definition setBaseUrl (t : LoadTester) (url : string) : LoadTester :=
  {| config :=
       {| baseUrl := url;
          duration := duration (config t);
          warmupDuration := warmupDuration (config t);
          warmupTPS := warmupTPS (config t);
          timeout := timeout (config t) |};
     results := results t;
     isRunning := isRunning t;
     requestCount := requestCount t;
     errorCount := errorCount t;
     responseTimes := responseTimes t |}.

(** [runFullBenchmark(baseUrl)]: the tester afterwards and the returned
    [this.results]. *)
Definition runFullBenchmark (t : LoadTester) (url : string) (env : BenchmarkEnv)
    : Completion (LoadTester * list Phase.Result) :=
  match runWarmup (setBaseUrl t url) (warmupEnv env) with
  | Returns (t1, _) =>
      match sweep t1 tpsLevels (sweepEnvs env) with
      | Returns t2 => Returns (t2, results t2)
      | Suspended => Suspended
      | Throws => Throws
      end
  | Suspended => Suspended
  | Throws => Throws
  end.

(** ** Notions used to state the properties *)

(** The response time a settlement adds to [this.responseTimes] in
    [runTest]: [result.responseTime], or [error.responseTime || 0]. *)
Definition recordedTime (s : Settlement) : Q :=
  match s with
  | Resolved r => responseTime r
  | Rejected e => or_default (rejectionResponseTime e) 0
  end.

(** Whether a settlement is counted in [this.errorCount]. *)
Definition countedAsError (s : Settlement) : bool :=
  match s with
  | Resolved r => negb (success r)
  | Rejected _ => true
  end.

Definition settlementOf (p : Promise) : list Settlement :=
  match p with
  | Pending _ => []
  | Settled s => [s]
  end.

(** The settlements reached so far, in dispatch order. *)
Definition settlements (ps : list Promise) : list Settlement :=
  flat_map settlementOf ps.

(** A request that ended with [success = true]. *)
Definition succeeded (p : Promise) : Prop :=
  exists r, p = Settled (Resolved r) /\ success r = true.

(** A request that ended without success: a response outside 2xx, or a
    rejection. *)
Definition failed (p : Promise) : Prop :=
  exists s, p = Settled s /\ countedAsError s = true.

(** A rejection whose [responseTime] is missing or zero. *)
Definition noPositiveResponseTime (e : Rejection) : Prop :=
  match rejectionResponseTime e with
  | None => True
  | Some rt => rt == 0
  end.

Definition zeroStats : Stats :=
  {| avgResponseTime := Fin 0;
     minResponseTime := Some 0%Q;
     maxResponseTime := Some 0%Q;
     p50ResponseTime := Some 0%Q;
     p95ResponseTime := Some 0%Q;
     p99ResponseTime := Some 0%Q |}.

Definition Q_eq_dec (a b : Q) : {a = b} + {a <> b}.
Proof. decide equality; [apply Pos.eq_dec | apply Z.eq_dec]. Defined.

Definition Payload_eq_dec (a b : Payload) : {a = b} + {a <> b}.
Proof.
  decide equality; try apply Q_eq_dec; try apply Bool.bool_dec; apply string_dec.
Defined.

Definition Scenario_eq_dec (a b : Scenario) : {a = b} + {a <> b}.
Proof.
  decide equality.
  - decide equality. apply Payload_eq_dec.
  - apply Z.eq_dec.
  - decide equality.
  - apply string_dec.
Defined.

(** The run of copies one scenario contributes to the weighted table. *)
Definition block (s : Scenario) : list Scenario := repeat s (Z.to_nat (weight s)).

Definition sumWeights (scenarios : list Scenario) : Z :=
  fold_right (fun s acc => weight s + acc) 0 scenarios.

(** The values of [Math.random()] that [drawIndex] sends to slot [j] of a
    table of [len] slots form the interval from [j / len] up to
    [(j + 1) / len]; this is its length. *)
Definition slotWidth (len j : nat) : Q :=
  (inject_Z (Z.of_nat j) + 1) / inject_Z (Z.of_nat len)
  - inject_Z (Z.of_nat j) / inject_Z (Z.of_nat len).

Fixpoint slotsOf (len j : nat) (table : list Scenario) (s : Scenario) : Q :=
  match table with
  | [] => 0
  | x :: rest =>
      (if Scenario_eq_dec x s then slotWidth len j else 0) + slotsOf len (S j) rest s
  end.

(** The chance that a uniform [Math.random()] selects [s]: the total length
    of the intervals of the slots holding [s]. *)
Definition drawProbability (table : list Scenario) (s : Scenario) : Q :=
  slotsOf (List.length table) 0 table s.

(** What [runTest] keeps true of its counters while a phase runs: the tester
    has the configuration [cfg] and the earlier results [res], and its three
    counters account for exactly the requests settled so far. *)
Definition consistent (cfg : Config) (res : list Phase.Result)
    (pc : Pacer LoadTester) : Prop :=
  config (state pc) = cfg /\
  results (state pc) = res /\
  requestCount (state pc) = List.length (settlements (requestPromises pc)) /\
  errorCount (state pc)
    = List.length (filter countedAsError (settlements (requestPromises pc))) /\
  Permutation (responseTimes (state pc))
              (map recordedTime (settlements (requestPromises pc))).

Definition mapPacer {A B : Type} (f : A -> B) (pc : Pacer A) : Pacer B :=
  {| state := f (state pc);
     requestPromises := requestPromises pc;
     nextRequestTime := nextRequestTime pc;
     pacing := pacing pc |}.

(** The tester [t] with [this.results] replaced. *)
Definition withResults (rs : list Phase.Result) (t : LoadTester) : LoadTester :=
  {| config := config t;
     results := rs;
     isRunning := isRunning t;
     requestCount := requestCount t;
     errorCount := errorCount t;
     responseTimes := responseTimes t |}.

(** The state in which a phase of [runTest] leaves its loop and join. *)
Definition phaseOf (t : LoadTester) (tps : Q) (env : PhaseEnv) : Pacer LoadTester :=
  match runPhase t tps env with
  | Some pc => pc
  | None => startPacer LoadTester (resetCounters t) (startNow env)
  end.

(** The result [r] is what [runTest] returns for the rate [tps] in the
    environment [env] from any tester configured by [cfg], whatever its
    counters and earlier results. *)
Definition freshResult (cfg : Config) (r : Phase.Result) (tps : Z) (env : PhaseEnv) : Prop :=
  forall fresh, config fresh = cfg ->
    exists t', runTest fresh (inject_Z tps) (tpsLabel tps) env = Returns (t', r).

(** The tester and the results a whole benchmark ends with. *)
Definition outcomeOf (t : LoadTester) (url : string) (env : BenchmarkEnv)
    : LoadTester * list Phase.Result :=
  match runFullBenchmark t url env with
  | Returns x => x
  | _ => (t, [])
  end.

(** Every value of [Math.random()] in the trace lies in the unit interval,
    as the platform guarantees. *)
Definition drawsInRange (evs : list Event) : Prop :=
  Forall (fun e => match e with
                   | LoopPass _ _ random _ => (0 <= random < 1)%Q
                   | _ => True
                   end) evs.

(** *** Sample runs *)

(** A tester whose phases last one millisecond. *)
Definition briefConfig : Config :=
  {| baseUrl := "http://localhost:8080";
     duration := 1 # 1000;
     warmupDuration := 1 # 1000;
     warmupTPS := 1000;
     timeout := None |}.

(** The clock has moved on by a millisecond when the loop condition is
    first evaluated, so the loop body never runs. *)
Definition lateEnv : PhaseEnv :=
  {| startNow := 0;
     randomId := 1 # 2;
     events := [LoopPass 1 1 0 (Started 0)] |}.

(** One request is fired at the start and answered with 200 after 12 ms;
    the next look at the clock is past the end of the phase. *)
Definition oneRequestEnv : PhaseEnv :=
  {| startNow := 0;
     randomId := 1 # 2;
     events := [LoopPass 0 0 (1 # 3) (Started 0);
                Transport 0 (ResponseEnd 200 "ok" 12);
                LoopPass 180000 180000 0 (Started 0)] |}.

(** Three requests: one answered after 12 ms, one whose executor throws,
    one refused the moment it is sent. They settle out of dispatch order. *)
Definition mixedEnv : PhaseEnv :=
  {| startNow := 0;
     randomId := 1 # 2;
     events := [LoopPass 0 0 (1 # 3) (Started 0);
                LoopPass 200 200 (99 # 100) (Threw "Invalid URL");
                LoopPass 400 400 (1 # 2) (Started (801 # 2));
                Transport 2 (RequestError "connect ECONNREFUSED" (801 # 2));
                Transport 0 (ResponseEnd 200 "ok" 12);
                LoopPass 60000 60000 0 (Started 0)] |}.

(** Two requests, both refused. *)
Definition refusedEnv : PhaseEnv :=
  {| startNow := 0;
     randomId := 1 # 2;
     events := [LoopPass 0 0 (1 # 3) (Started 0);
                Transport 0 (RequestError "connect ECONNREFUSED" 1);
                LoopPass 200 200 (2 # 3) (Started 200);
                Transport 1 (RequestError "connect ECONNREFUSED" 202);
                LoopPass 60000 60000 0 (Started 0)] |}.

(** Two requests whose executor throws and one answered after 12 ms. *)
Definition thrownEnv : PhaseEnv :=
  {| startNow := 0;
     randomId := 1 # 2;
     events := [LoopPass 0 0 (1 # 3) (Threw "Invalid URL");
                LoopPass 200 200 (1 # 3) (Started 200);
                LoopPass 400 400 (1 # 3) (Threw "Invalid URL");
                Transport 1 (ResponseEnd 200 "ok" 212);
                LoopPass 60000 60000 0 (Started 0)] |}.

Definition sampleBenchmarkEnv : BenchmarkEnv :=
  {| warmupEnv := oneRequestEnv;
     sweepEnvs := [oneRequestEnv; mixedEnv; refusedEnv; oneRequestEnv;
                   oneRequestEnv; mixedEnv; oneRequestEnv] |}.

Definition sampleTester (times : list Q) : LoadTester :=
  {| config := defaultConfig;
     results := [];
     isRunning := true;
     requestCount := List.length times;
     errorCount := 0;
     responseTimes := times |}.

(** ** [generateComparisonReport]

    The function only prints. Its embedding returns the figures it computes,
    before [toFixed] formats them. *)

(** A statistic read in an arithmetic expression: [undefined] gives NaN. *)
Definition numberOf (v : option Q) : number :=
  match v with
  | Some q => Fin q
  | None => NaN
  end.

(** [results.reduce((sum, r) => sum + r.field, 0) / results.length] *)
Definition averageOf (field : Phase.Result -> number) (rs : list Phase.Result) : number :=
  Num.div (fold_left (fun sum r => Num.add sum (field r)) rs (Num.of_Z 0))
          (Num.of_nat (List.length rs)).

(** [(a - b) / a * 100] *)
Definition improvementOf (a b : number) : number :=
  Num.mul (Num.div (Num.sub a b) a) (Num.of_Z 100).

(** One line of the detailed table. *)
Record ComparisonRow : Type := {
  rowTPS : Q;
  springRPS : number;
  bunRPS : number;
  springRowAvg : number;
  bunRowAvg : number;
  rowImprovement : number
}.

Record Comparison : Type := {
  springAvg : number;
  bunAvg : number;
  avgImprovement : number;
  springP95 : number;
  bunP95 : number;
  p95Improvement : number;
  springErrors : number;
  bunErrors : number;
  comparisonRows : list ComparisonRow
}.

(** The body of the [for] loop over [i < springResults.length &&
    i < bunResults.length]. *)
Fixpoint comparisonTable (springResults bunResults : list Phase.Result)
    : list ComparisonRow :=
  match springResults, bunResults with
  | spring :: springRest, bun :: bunRest =>
      {| rowTPS := Phase.targetTPS spring;
         springRPS := Phase.actualTPS spring;
         bunRPS := Phase.actualTPS bun;
         springRowAvg := avgResponseTime (Phase.stats spring);
         bunRowAvg := avgResponseTime (Phase.stats bun);
         rowImprovement :=
           improvementOf (avgResponseTime (Phase.stats spring))
                         (avgResponseTime (Phase.stats bun)) |}
      :: comparisonTable springRest bunRest
  | _, _ => []
  end.

Definition generateComparisonReport (springResults bunResults : list Phase.Result)
    : Comparison :=
  let avgOf := averageOf (fun r => avgResponseTime (Phase.stats r)) in
  let p95Of := averageOf (fun r => numberOf (p95ResponseTime (Phase.stats r))) in
  let errorsOf := averageOf Phase.errorRate in
  {| springAvg := avgOf springResults;
     bunAvg := avgOf bunResults;
     avgImprovement := improvementOf (avgOf springResults) (avgOf bunResults);
     springP95 := p95Of springResults;
     bunP95 := p95Of bunResults;
     p95Improvement := improvementOf (p95Of springResults) (p95Of bunResults);
     springErrors := errorsOf springResults;
     bunErrors := errorsOf bunResults;
     comparisonRows := comparisonTable springResults bunResults |}.

(** The index [percentile(p)] reads in an array of [n] elements:
    [Math.max(0, Math.min(Math.ceil((p / 100) * n) - 1, n - 1))]. *)
Definition percentileIndex (n : Z) (p : Q) : Z :=
  Z.max 0 (Z.min (Qceiling ((p / 100) * inject_Z n) - 1) (n - 1)).

(** ** Further notions for the properties of the pacing loop *)

Definition isLoopPass (e : Event) : bool :=
  match e with
  | LoopPass _ _ _ _ => true
  | _ => false
  end.

Definition isStopCall (e : Event) : bool :=
  match e with
  | StopCall => true
  | _ => false
  end.

(** The number of times the trace goes round the [while] loop. *)
Definition loopPasses (evs : list Event) : nat :=
  List.length (filter isLoopPass evs).

(** The trace without the calls of [stop()]. *)
Definition withoutStops (evs : list Event) : list Event :=
  filter (fun e => negb (isStopCall e)) evs.


(** No transport event in the trace is for request [k]. *)
Definition silentFor (k : nat) (evs : list Event) : Prop :=
  Forall (fun e => match e with
                   | Transport k' _ => k' <> k
                   | _ => True
                   end) evs.

(** One transport event, [answer k], for each of the first [n] requests. *)
Definition answerAll (answer : nat -> TransportEvent) (n : nat) : list Event :=
  map (fun k => Transport k (answer k)) (seq 0 n).

(** The environment [env] with another trace of events. *)
Definition withEvents (env : PhaseEnv) (evs : list Event) : PhaseEnv :=
  {| startNow := startNow env;
     randomId := randomId env;
     events := evs |}.

(** The benchmark environment with the calls of [stop()] taken out of the
    warm-up. *)
Definition withoutWarmupStops (env : BenchmarkEnv) : BenchmarkEnv :=
  {| warmupEnv := withEvents (warmupEnv env) (withoutStops (events (warmupEnv env)));
     sweepEnvs := sweepEnvs env |}.

(** The state in which the warm-up leaves its loop and join. *)
Definition warmupPhaseOf (t : LoadTester) (env : PhaseEnv) : Pacer Warmup :=
  match warmupPhase t env with
  | Some pc => pc
  | None =>
      startPacer Warmup
        {| tester := t; warmupRequestCount := 0; warmupErrorCount := 0 |}
        (startNow env)
  end.

(** A stop is requested after the first request has been fired. *)
Definition stoppedEnv : PhaseEnv :=
  {| startNow := 0;
     randomId := 1 # 2;
     events := [LoopPass 0 0 (1 # 3) (Started 0);
                StopCall;
                LoopPass 200 200 (1 # 3) (Started 200);
                Transport 0 (ResponseEnd 200 "ok" 12);
                LoopPass 400 400 (1 # 3) (Started 400)] |}.

(** A request that is fired and never heard of again. *)
Definition silentEnv : PhaseEnv :=
  {| startNow := 0;
     randomId := 1 # 2;
     events := [LoopPass 0 0 (1 # 3) (Started 0);
                LoopPass 60000 60000 0 (Started 0)] |}.

(** ** The pre-flight check of the shell script

    [check_service] and [test_endpoint] of the benchmark script accept a
    service when [curl] exits with 0 and the status code it printed matches
    the pattern [^[2-3][0-9][0-9]$]. *)






(** * Properties *)

(** ** Arithmetic of rates *)

Lemma of_nat_nonzero (n : nat) :
  n <> 0%nat -> Num.is_zero (inject_Z (Z.of_nat n)) = false.
Proof.
  intros Hn. unfold Num.is_zero.
  destruct (Qeq_bool (inject_Z (Z.of_nat n)) 0) eqn:E; [|reflexivity].
  apply Qeq_bool_eq in E. unfold Qeq in E. simpl in E. lia.
Qed.

(** [(0 / n) * 100] is [0] for a positive count [n]. *)
Lemma rate_none (n : nat) :
  n <> 0%nat ->
  Num.mul (Num.div (Num.of_nat 0) (Num.of_nat n)) (Num.of_Z 100) = Fin 0.
Proof.
  intros Hn. unfold Num.of_nat, Num.of_Z, Num.div.
  rewrite (of_nat_nonzero n Hn). unfold Num.of_Q, Num.mul.
  apply (f_equal Fin).
  change 0%Q with (Qred 0). apply Qred_complete.
  rewrite Qred_correct. simpl (Z.of_nat 0). unfold Qdiv.
  change (inject_Z 0) with 0%Q. ring.
Qed.

(** [(n / n) * 100] is [100] for a positive count [n]. *)
Lemma rate_all (n : nat) :
  n <> 0%nat ->
  Num.mul (Num.div (Num.of_nat n) (Num.of_nat n)) (Num.of_Z 100) = Fin 100.
Proof.
  intros Hn. unfold Num.of_nat, Num.of_Z, Num.div.
  rewrite (of_nat_nonzero n Hn). unfold Num.of_Q, Num.mul.
  apply (f_equal Fin).
  change (Qred (Qred (inject_Z (Z.of_nat n) / inject_Z (Z.of_nat n)) * inject_Z 100) = Qred 100). apply Qred_complete.
  rewrite Qred_correct. change (inject_Z 100) with 100%Q.
  assert (H : ~ inject_Z (Z.of_nat n) == 0).
  { unfold Qeq. simpl. lia. }
  field. exact H.
Qed.

(** ** Sorting *)

Lemma insertSorted_perm (x : Q) (l : list Q) :
  Permutation (insertSorted x l) (x :: l).
Proof.
  induction l as [|y l IH]; simpl.
  - apply Permutation_refl.
  - destruct (Qle_bool (compareFn x y) 0).
    + apply Permutation_refl.
    + eapply perm_trans; [apply perm_skip, IH | apply perm_swap].
Qed.

Lemma sortAscending_perm (l : list Q) : Permutation (sortAscending l) l.
Proof.
  induction l as [|x l IH]; simpl.
  - constructor.
  - eapply perm_trans; [apply insertSorted_perm | apply perm_skip, IH].
Qed.

Lemma sortAscending_length (l : list Q) :
  List.length (sortAscending l) = List.length l.
Proof. apply Permutation_length, sortAscending_perm. Qed.

Lemma compareFn_le (x y : Q) : Qle_bool (compareFn x y) 0 = true <-> (x <= y)%Q.
Proof. rewrite Qle_bool_iff. unfold compareFn. split; intro; lra. Qed.

Lemma insertSorted_sorted (x : Q) (l : list Q) :
  StronglySorted Qle l -> StronglySorted Qle (insertSorted x l).
Proof.
  induction l as [|y l IH]; intros Hs; simpl.
  - repeat constructor.
  - destruct (Qle_bool (compareFn x y) 0) eqn:E.
    + apply compareFn_le in E.
      constructor; [exact Hs|].
      constructor; [exact E|].
      inversion Hs as [|? ? _ Hall]; subst.
      eapply Forall_impl; [|exact Hall]. intros z Hz. simpl in Hz. lra.
    + assert (Hyx : (y <= x)%Q).
      { destruct (Qlt_le_dec y x) as [H|H]; [lra|].
        apply compareFn_le in H. congruence. }
      inversion Hs as [|? ? Hs' Hall]; subst.
      constructor; [apply IH, Hs'|].
      eapply Permutation_Forall; [apply Permutation_sym, insertSorted_perm|].
      constructor; assumption.
Qed.

Lemma sortAscending_sorted (l : list Q) : StronglySorted Qle (sortAscending l).
Proof.
  induction l as [|x l IH]; simpl.
  - constructor.
  - apply insertSorted_sorted, IH.
Qed.

Lemma Qle_transitive : Relations_1.Transitive Qle.
Proof. intros x y z Hxy Hyz. lra. Qed.

(** ** Percentiles *)

Lemma at_index_last {A : Type} (l : list A) (d : A) :
  l <> [] -> at_index l (Z.of_nat (List.length l) - 1) = Some (last l d).
Proof.
  intros Hne. unfold at_index.
  assert (Hlen : (0 < List.length l)%nat).
  { destruct l; [congruence | simpl; lia]. }
  destruct (Z.ltb_spec (Z.of_nat (List.length l) - 1) 0) as [H|H]; [lia|].
  replace (Z.to_nat (Z.of_nat (List.length l) - 1)) with (List.length l - 1)%nat by lia.
  clear H Hlen. induction l as [|x l IH]; [congruence|].
  destruct l as [|y l]; [reflexivity|].
  change (last (x :: y :: l) d) with (last (y :: l) d).
  rewrite <- IH by discriminate. simpl. now rewrite Nat.sub_0_r.
Qed.

Lemma sorted_last_is_max (l : list Q) (d : Q) :
  StronglySorted Qle l -> forall x, In x l -> (x <= last l d)%Q.
Proof.
  induction l as [|y l IH]; intros Hs x Hin; [destruct Hin|].
  inversion Hs as [|? ? Hs' Hall]; subst.
  destruct l as [|z l].
  - destruct Hin as [->|[]]. simpl. lra.
  - change (last (y :: z :: l) d) with (last (z :: l) d).
    destruct Hin as [->|Hin].
    + rewrite Forall_forall in Hall. apply Hall.
      destruct (exists_last (l := z :: l)) as [l' [a E]]; [discriminate|].
      rewrite E, last_last. apply in_or_app. right. now left.
    + now apply IH.
Qed.

Lemma last_In {A : Type} (l : list A) (d : A) : l <> [] -> In (last l d) l.
Proof.
  intros Hne. destruct (exists_last Hne) as [l' [a E]].
  rewrite E, last_last. apply in_or_app. right. now left.
Qed.

Lemma percentile_100_index (t : LoadTester) :
  responseTimes t <> [] ->
  percentile t 100 = Some (last (responseTimes t) 0%Q).
Proof.
  intros Hne. unfold percentile, arrayLength.
  set (n := Z.of_nat (List.length (responseTimes t))).
  assert (Hn : 1 <= n).
  { unfold n. destruct (responseTimes t); [congruence | simpl List.length; lia]. }
  assert (E : Qceiling (100 / 100 * inject_Z n) = n).
  { rewrite <- (Qceiling_Z n) at 2. apply Qceiling_comp. field. }
  rewrite E.
  replace (Z.max 0 (Z.min (n - 1) (n - 1))) with (n - 1) by lia.
  now apply at_index_last.
Qed.

Lemma percentile_singleton (t : LoadTester) (x p : Q) :
  responseTimes t = [x] -> percentile t p = Some x.
Proof.
  intros E. unfold percentile, arrayLength. rewrite E. simpl List.length.
  change (Z.of_nat 1 - 1) with 0.
  replace (Z.max 0 (Z.min (Qceiling (p / 100 * inject_Z (Z.of_nat 1)) - 1) 0)) with 0 by lia.
  reflexivity.
Qed.

(** C5. Over a non-empty ascending-sorted array [percentile(100)] is the
    maximum of the array, and over a one-element array [percentile(p)] is
    that element for every [p] between 0 and 100. *)
Theorem percentile_max_and_singleton (t : LoadTester) :
  responseTimes t <> [] ->
  Sorted Qle (responseTimes t) ->
  (exists m, percentile t 100 = Some m /\
             In m (responseTimes t) /\
             forall x, In x (responseTimes t) -> (x <= m)%Q) /\
  (forall x p, responseTimes t = [x] -> (0 <= p <= 100)%Q -> percentile t p = Some x).
Proof.
  intros Hne Hsorted. split.
  - exists (last (responseTimes t) 0%Q). split; [|split].
    + now apply percentile_100_index.
    + now apply last_In.
    + apply sorted_last_is_max.
      apply Sorted_StronglySorted; [exact Qle_transitive | exact Hsorted].
  - intros x p E _. now apply percentile_singleton.
Qed.

Lemma percentile_max_and_singleton_witness :
  (exists m, percentile (sampleTester [3; 8; 21]%Q) 100 = Some m /\
             In m [3; 8; 21]%Q /\
             forall x, In x [3; 8; 21]%Q -> (x <= m)%Q) /\
  percentile (sampleTester [7]%Q) (1 # 2) = Some 7%Q.
Proof.
  split.
  - apply (percentile_max_and_singleton (sampleTester [3; 8; 21]%Q)).
    + discriminate.
    + repeat constructor; unfold Qle; simpl; lia.
  - apply (percentile_max_and_singleton (sampleTester [7]%Q)).
    + discriminate.
    + repeat constructor.
    + reflexivity.
    + split; unfold Qle; simpl; lia.
Defined.

(** ** Classification of one request *)

Lemma isSuccessStatus_spec (code : Z) :
  isSuccessStatus code = true <-> 200 <= code < 300.
Proof. unfold isSuccessStatus. rewrite andb_true_iff, Z.leb_le, Z.ltb_lt. tauto. Qed.

(** C1, as the code has it. A response that ends resolves the request
    promise with a result whose [success] is true exactly when the status
    code is at least 200 and below 300. *)
Theorem success_iff_status_2xx :
  forall (cfg : Config) (endpoint : string) (method : Method) (data : option Payload)
         (startTime : Q) (code : Z) (text : string) (now : Q),
  exists r,
    deliver cfg (makeRequest cfg endpoint method data (Started startTime))
            (ResponseEnd code text now) = Settled (Resolved r) /\
    statusCode r = code /\
    (success r = true <-> 200 <= code < 300).
Proof.
  intros. eexists. split; [reflexivity|]. split; [reflexivity|].
  simpl. apply isSuccessStatus_spec.
Qed.

(** C1 as claimed fails: a 301 response lies in the interval from 200 up to
    400 and is still classified as not successful. *)
Lemma redirect_is_not_success :
  ~ (forall r,
       deliver defaultConfig (makeRequest defaultConfig "/health" GET None (Started 0))
               (ResponseEnd 301 "" 5) = Settled (Resolved r) ->
       (success r = true <-> 200 <= 301 < 400)).
Proof.
  intros H. specialize (H _ eq_refl). simpl in H.
  assert (Hfalse : false = true) by (apply H; lia).
  discriminate Hfalse.
Qed.

(** C2, as the code has it. The first transport event settles the request
    promise and later ones leave it alone. A response that ends resolves
    it; a transport error rejects it with the error message, the elapsed
    time and [success = false]; a timeout rejects it with the message
    "Request timeout", [this.config.timeout || 30000] and
    [success = false]. The rejection reaches the caller, whose handler in
    [runTest] counts it as one failed request. *)
Theorem makeRequest_settles_once :
  forall (cfg : Config) (endpoint : string) (method : Method) (data : option Payload)
         (startTime : Q) (ev : TransportEvent),
  let p := deliver cfg (makeRequest cfg endpoint method data (Started startTime)) ev in
  (forall ev', deliver cfg p ev' = p) /\
  match ev with
  | ResponseEnd code text now =>
      exists r, p = Settled (Resolved r) /\
                statusCode r = code /\ body r = text /\
                responseTime r == now - startTime
  | RequestError message now =>
      exists elapsed, p = Settled (Rejected (Failure message elapsed false)) /\
                      elapsed == now - startTime
  | RequestTimeout =>
      p = Settled (Rejected (Failure "Request timeout" (or_default (timeout cfg) 30000) false))
  end /\
  (forall e t, p = Settled (Rejected e) ->
     requestCount (recordSettlement (Rejected e) t) = S (requestCount t) /\
     errorCount (recordSettlement (Rejected e) t) = S (errorCount t) /\
     responseTimes (recordSettlement (Rejected e) t)
       = responseTimes t ++ [or_default (rejectionResponseTime e) 0]).
Proof.
  intros. subst p. split; [reflexivity|]. split.
  - destruct ev as [code text now|message now|]; cbv beta iota.
    + eexists. split; [reflexivity|]. split; [reflexivity|].
      split; [reflexivity|]. apply Qred_correct.
    + eexists. split; [reflexivity|]. apply Qred_correct.
    + reflexivity.
  - intros e t _. repeat split.
Qed.

(** C2 as claimed fails: when the connection is refused the promise of
    [makeRequest] is rejected, it does not resolve to a result. *)
Lemma refused_connection_rejects :
  ~ (exists r,
       deliver defaultConfig (makeRequest defaultConfig "/health" GET None (Started 0))
               (RequestError "connect ECONNREFUSED" 3) = Settled (Resolved r)).
Proof. intros [r H]. discriminate H. Qed.

(** ** The weighted table *)

Lemma pushTimes_repeat (n : nat) (s : Scenario) (table : list Scenario) :
  pushTimes n s table = table ++ repeat s n.
Proof.
  revert table. induction n as [|n IH]; intros table; simpl.
  - now rewrite app_nil_r.
  - rewrite IH, <- app_assoc. reflexivity.
Qed.

Lemma buildWeighted_from (scenarios acc : list Scenario) :
  fold_left (fun table s => pushTimes (Z.to_nat (weight s)) s table) scenarios acc
  = acc ++ flat_map block scenarios.
Proof.
  revert acc. induction scenarios as [|s rest IH]; intros acc; simpl.
  - now rewrite app_nil_r.
  - rewrite IH, pushTimes_repeat, <- app_assoc. reflexivity.
Qed.

Lemma buildWeighted_blocks (scenarios : list Scenario) :
  buildWeighted scenarios = flat_map block scenarios.
Proof. unfold buildWeighted. now rewrite buildWeighted_from. Qed.

Lemma blocks_length (scenarios : list Scenario) :
  (forall s, In s scenarios -> 0 < weight s) ->
  Z.of_nat (List.length (flat_map block scenarios)) = sumWeights scenarios.
Proof.
  induction scenarios as [|s rest IH]; intros Hpos; simpl; [reflexivity|].
  rewrite length_app, Nat2Z.inj_add, IH by (intros; apply Hpos; now right).
  unfold block. rewrite repeat_length.
  specialize (Hpos s (or_introl eq_refl)). lia.
Qed.

Lemma count_occ_block (s x : Scenario) :
  count_occ Scenario_eq_dec (block s) x
  = if Scenario_eq_dec s x then Z.to_nat (weight s) else 0%nat.
Proof.
  unfold block. destruct (Scenario_eq_dec s x) as [->|Hne].
  - apply count_occ_repeat_eq. reflexivity.
  - apply count_occ_repeat_neq. congruence.
Qed.

Lemma blocks_count (scenarios : list Scenario) (x : Scenario) :
  NoDup scenarios -> In x scenarios ->
  count_occ Scenario_eq_dec (flat_map block scenarios) x = Z.to_nat (weight x).
Proof.
  induction scenarios as [|s rest IH]; intros Hnd Hin; [destruct Hin|].
  simpl. rewrite count_occ_app, count_occ_block.
  inversion Hnd as [|? ? Hnotin Hnd']; subst.
  destruct (Scenario_eq_dec s x) as [->|Hne].
  - assert (E : count_occ Scenario_eq_dec (flat_map block rest) x = 0%nat).
    { apply count_occ_not_In. intros Hx. apply in_flat_map in Hx.
      destruct Hx as [y [Hy Hxy]]. unfold block in Hxy.
      apply repeat_spec in Hxy. subst. contradiction. }
    rewrite E. lia.
  - destruct Hin as [->|Hin]; [congruence|]. rewrite IH by assumption. lia.
Qed.

(** ** Drawing from the table *)

Lemma Qfloor_unique (x : Q) (j : Z) :
  Qfloor x = j <-> (inject_Z j <= x < inject_Z j + 1)%Q.
Proof.
  split.
  - intros <-. split; [apply Qfloor_le|].
    change 1%Q with (inject_Z 1). rewrite <- inject_Z_plus. apply Qlt_floor.
  - intros [Hlo Hhi].
    assert (H1 : j <= Qfloor x).
    { rewrite <- (Qfloor_Z j). now apply Qfloor_resp_le. }
    assert (H2 : Qfloor x < j + 1).
    { rewrite Zlt_Qlt, inject_Z_plus. change (inject_Z 1) with 1%Q.
      eapply Qle_lt_trans; [apply Qfloor_le | exact Hhi]. }
    lia.
Qed.

Lemma table_size_positive (len : nat) :
  (0 < len)%nat -> (0 < inject_Z (Z.of_nat len))%Q.
Proof. intros H. change 0%Q with (inject_Z 0). rewrite <- Zlt_Qlt. lia. Qed.

(** [drawIndex] sends exactly the interval from [j / len] up to
    [(j + 1) / len] to slot [j]. *)
Lemma drawIndex_slot (len : nat) (random : Q) (j : Z) :
  (0 < len)%nat ->
  drawIndex len random = j <->
  (inject_Z j / inject_Z (Z.of_nat len) <= random
   < (inject_Z j + 1) / inject_Z (Z.of_nat len))%Q.
Proof.
  intros Hlen. unfold drawIndex. rewrite Qfloor_unique.
  pose proof (table_size_positive len Hlen) as HL.
  set (L := inject_Z (Z.of_nat len)) in *.
  assert (HLne : ~ L == 0) by lra.
  assert (E1 : (inject_Z j / L * L == inject_Z j)%Q) by (field; exact HLne).
  assert (E2 : ((inject_Z j + 1) / L * L == inject_Z j + 1)%Q) by (field; exact HLne).
  rewrite <- (Qmult_le_r (inject_Z j / L) random L HL).
  rewrite <- (Qmult_lt_r random ((inject_Z j + 1) / L) L HL).
  rewrite E1, E2. tauto.
Qed.

Lemma drawIndex_in_range (len : nat) (random : Q) :
  (0 < len)%nat -> (0 <= random < 1)%Q ->
  0 <= drawIndex len random < Z.of_nat len.
Proof.
  intros Hlen [Hlo Hhi].
  pose proof (table_size_positive len Hlen) as HL.
  unfold drawIndex.
  set (L := inject_Z (Z.of_nat len)) in *.
  assert (Hx0 : (0 <= random * L)%Q) by (apply Qmult_le_0_compat; lra).
  assert (Hx1 : (random * L < L)%Q).
  { setoid_replace L with (1 * L)%Q at 2 by ring. apply Qmult_lt_compat_r; assumption. }
  split.
  - change 0 with (Qfloor 0). now apply Qfloor_resp_le.
  - rewrite Zlt_Qlt. fold L.
    eapply Qle_lt_trans; [apply Qfloor_le | exact Hx1].
Qed.

Lemma slotWidth_uniform (len j : nat) :
  (0 < len)%nat -> slotWidth len j == 1 / inject_Z (Z.of_nat len).
Proof.
  intros Hlen. pose proof (table_size_positive len Hlen) as HL.
  unfold slotWidth. field. lra.
Qed.

Lemma slotsOf_count (len j : nat) (table : list Scenario) (s : Scenario) :
  (0 < len)%nat ->
  slotsOf len j table s
  == inject_Z (Z.of_nat (count_occ Scenario_eq_dec table s)) / inject_Z (Z.of_nat len).
Proof.
  intros Hlen. pose proof (table_size_positive len Hlen) as HL.
  revert j. induction table as [|x rest IH]; intros j; simpl.
  - field. lra.
  - rewrite IH. destruct (Scenario_eq_dec x s) as [E|E].
    + rewrite slotWidth_uniform by assumption.
      rewrite Nat2Z.inj_succ. unfold Z.succ. rewrite inject_Z_plus.
      change (inject_Z 1) with 1%Q. field. lra.
    + field. lra.
Qed.

Lemma sumWeights_positive (scenarios : list Scenario) :
  scenarios <> [] ->
  (forall s, In s scenarios -> 0 < weight s) ->
  0 < sumWeights scenarios.
Proof.
  intros Hne Hpos. destruct scenarios as [|s rest]; [congruence|].
  simpl. pose proof (Hpos s (or_introl eq_refl)).
  rewrite <- (blocks_length rest) by (intros; apply Hpos; now right).
  lia.
Qed.

(** C7. For a non-empty list of distinct scenarios with positive integer
    weights, the weighted table is the scenarios in order, each repeated
    [weight] times; its length is the sum of the weights; a value of
    [Math.random()] in the unit interval selects a slot of the table, each
    slot being hit by an interval of the same length [1 / length]; so a
    scenario is drawn with probability [weight / sum of weights]. *)
Theorem weighted_table_selection (scenarios : list Scenario) :
  scenarios <> [] ->
  (forall s, In s scenarios -> 0 < weight s) ->
  NoDup scenarios ->
  let table := buildWeighted scenarios in
  let len := List.length table in
  table = flat_map (fun s => repeat s (Z.to_nat (weight s))) scenarios /\
  Z.of_nat len = sumWeights scenarios /\
  (forall s, In s scenarios ->
     Z.of_nat (count_occ Scenario_eq_dec table s) = weight s) /\
  (forall random, (0 <= random < 1)%Q ->
     exists j s, drawIndex len random = Z.of_nat j /\ (j < len)%nat /\
                 nth_error table j = Some s /\
                 selectScenario table random = Some s /\ In s scenarios) /\
  (forall (j : nat) random, (j < len)%nat ->
     drawIndex len random = Z.of_nat j <->
     (inject_Z (Z.of_nat j) / inject_Z (Z.of_nat len) <= random
      < (inject_Z (Z.of_nat j) + 1) / inject_Z (Z.of_nat len))%Q) /\
  (forall s, In s scenarios ->
     drawProbability table s == inject_Z (weight s) / inject_Z (sumWeights scenarios)).
Proof.
  intros Hne Hpos Hnd table len.
  assert (Etable : table = flat_map block scenarios) by apply buildWeighted_blocks.
  assert (Elen : Z.of_nat len = sumWeights scenarios).
  { unfold len. rewrite Etable. now apply blocks_length. }
  assert (Hlen : (0 < len)%nat).
  { pose proof (sumWeights_positive scenarios Hne Hpos). lia. }
  assert (Ecount : forall s, In s scenarios ->
            Z.of_nat (count_occ Scenario_eq_dec table s) = weight s).
  { intros s Hs. rewrite Etable, blocks_count by assumption.
    specialize (Hpos s Hs). lia. }
  split; [exact Etable|]. split; [exact Elen|]. split; [exact Ecount|].
  split; [|split].
  - intros random Hr.
    pose proof (drawIndex_in_range len random Hlen Hr) as [Hlo Hhi].
    exists (Z.to_nat (drawIndex len random)).
    destruct (nth_error table (Z.to_nat (drawIndex len random))) as [s|] eqn:E.
    + exists s. split; [lia|]. split; [lia|]. split; [reflexivity|]. split.
      * unfold selectScenario, at_index. fold len.
        destruct (Z.ltb_spec (drawIndex len random) 0); [lia | exact E].
      * apply nth_error_In in E. rewrite Etable in E.
        apply in_flat_map in E. destruct E as [y [Hy Hin]].
        unfold block in Hin. apply repeat_spec in Hin. now subst.
    + apply nth_error_None in E. fold len in E. lia.
  - intros j random _. now apply drawIndex_slot.
  - intros s Hs. unfold drawProbability. fold len.
    rewrite slotsOf_count by assumption.
    rewrite (Ecount s Hs), Elen. reflexivity.
Qed.

Lemma weighted_table_selection_witness :
  Z.of_nat (List.length (buildWeighted (testScenarios (1 # 2)))) = 100 /\
  drawProbability (buildWeighted (testScenarios (1 # 2)))
    {| endpoint := "/health"; method := GET; weight := 30; data := None |}
  == 30 / 100.
Proof.
  assert (Hne : testScenarios (1 # 2) <> []) by discriminate.
  assert (Hpos : forall s, In s (testScenarios (1 # 2)) -> 0 < weight s).
  { intros s Hs. simpl in Hs.
    repeat (destruct Hs as [<-|Hs]; [reflexivity|]). destruct Hs. }
  assert (Hnd : NoDup (testScenarios (1 # 2))).
  { repeat constructor; simpl; intuition discriminate. }
  destruct (weighted_table_selection (testScenarios (1 # 2)) Hne Hpos Hnd)
    as (_ & Hlen & _ & _ & _ & Hprob).
  split.
  - exact Hlen.
  - apply (Hprob {| endpoint := "/health"; method := GET; weight := 30; data := None |}).
    simpl. now left.
Defined.

(** ** The pacing loop, for any handlers *)

Lemma settlements_app (l1 l2 : list Promise) :
  settlements (l1 ++ l2) = settlements l1 ++ settlements l2.
Proof. apply flat_map_app. Qed.

Lemma settlements_replaceAt (ps : list Promise) (k : nat) (startTime : Q) (s : Settlement) :
  nth_error ps k = Some (Pending startTime) ->
  exists l1 l2,
    settlements ps = l1 ++ l2 /\
    settlements (replaceAt k (Settled s) ps) = l1 ++ s :: l2.
Proof.
  revert k. induction ps as [|p ps IH]; intros k Hk.
  - destruct k; discriminate.
  - destruct k as [|k]; simpl in Hk.
    + injection Hk as ->. exists [], (settlements ps). split; reflexivity.
    + destruct (IH k Hk) as (l1 & l2 & E1 & E2).
      exists (settlementOf p ++ l1), l2. unfold settlements in *. simpl.
      rewrite E1, E2, !app_assoc. split; reflexivity.
Qed.

Lemma all_settled_length (ps : list Promise) :
  forallb isSettled ps = true ->
  List.length (settlements ps) = List.length ps.
Proof.
  induction ps as [|p ps IH]; intros H; [reflexivity|].
  simpl in H. apply andb_true_iff in H. destruct H as [Hp Hps].
  destruct p; [discriminate|]. unfold settlements in *. simpl. now rewrite IH.
Qed.

Lemma all_settled_map (ps : list Promise) :
  forallb isSettled ps = true -> map Settled (settlements ps) = ps.
Proof.
  induction ps as [|p ps IH]; intros H; [reflexivity|].
  simpl in H. apply andb_true_iff in H. destruct H as [Hp Hps].
  destruct p; [discriminate|]. unfold settlements in *. simpl. now rewrite IH.
Qed.

Section PacingFacts.

Variable State : Type.
Variable keepRunning : State -> bool.
Variable onSettled : Settlement -> State -> State.
Variable onStop : State -> State.
Variable cfg : Config.
Variable weightedScenarios : list Scenario.
Variable endTime : number.
Variable interval : number.

Local Abbreviation step' :=
  (step State keepRunning onSettled onStop cfg weightedScenarios endTime interval).
Local Abbreviation run' :=
  (runEvents State keepRunning onSettled onStop cfg weightedScenarios endTime interval).

(** What one event can do to the handler state and to the settlements:
    nothing, record one more settlement, or register a call of [stop]. *)
Lemma step_cases (pc pc' : Pacer State) (e : Event) :
  step' pc e = Some pc' ->
  (state pc' = state pc /\
   settlements (requestPromises pc') = settlements (requestPromises pc)) \/
  (exists s l1 l2,
     state pc' = onSettled s (state pc) /\
     settlements (requestPromises pc) = l1 ++ l2 /\
     settlements (requestPromises pc') = l1 ++ s :: l2) \/
  (state pc' = onStop (state pc) /\
   requestPromises pc' = requestPromises pc).
Proof.
  unfold step. destruct (joined pc).
  { intros [= <-]. left. split; reflexivity. }
  destruct e as [condNow bodyNow random exec|k ev|].
  - destruct (pacing pc); [|intros [= <-]; left; split; reflexivity].
    unfold loopPass.
    destruct (Num.ltb (Num.of_Z condNow) endTime && keepRunning (state pc));
      [|intros [= <-]; left; split; reflexivity].
    destruct (Num.geb (Num.of_Z bodyNow) (nextRequestTime pc));
      [|intros [= <-]; left; split; reflexivity].
    unfold dispatch.
    destruct (selectScenario weightedScenarios random) as [scenario|]; [|discriminate].
    intros [= <-]. destruct exec as [startTime|message]; simpl.
    + left. split; [reflexivity|].
      rewrite settlements_app. apply app_nil_r.
    + right. left.
      exists (Rejected (Exception message)), (settlements (requestPromises pc)), [].
      split; [reflexivity|]. split; [now rewrite app_nil_r|].
      now rewrite settlements_app.
  - intros [= <-]. unfold settle.
    destruct (nth_error (requestPromises pc) k) as [[startTime|s]|] eqn:Hk;
      try (left; split; reflexivity).
    simpl. right. left.
    destruct (settlements_replaceAt _ _ _ (onEvent cfg startTime ev) Hk)
      as (l1 & l2 & E1 & E2).
    exists (onEvent cfg startTime ev), l1, l2. repeat split; assumption.
  - intros [= <-]. right. right. split; reflexivity.
Qed.

Lemma run_preserves (I : Pacer State -> Prop) :
  (forall pc e pc', I pc -> step' pc e = Some pc' -> I pc') ->
  forall evs pc pc', I pc -> run' pc evs = Some pc' -> I pc'.
Proof.
  intros Hstep. induction evs as [|e evs IH]; intros pc pc' HI Hrun.
  - injection Hrun as <-. exact HI.
  - simpl in Hrun.
    destruct (step State keepRunning onSettled onStop cfg weightedScenarios
                endTime interval pc e) as [pc1|] eqn:E; [|discriminate].
    eapply IH; [|exact Hrun]. eapply Hstep; eassumption.
Qed.

(** A property of the handler state that the handlers and [stop] keep
    holds at the end of the run. *)
Lemma run_state_invariant (P : State -> Prop) :
  (forall s st, P st -> P (onSettled s st)) ->
  (forall st, P st -> P (onStop st)) ->
  forall evs pc pc', P (state pc) -> run' pc evs = Some pc' -> P (state pc').
Proof.
  intros Hs Hstop. apply (run_preserves (fun pc => P (state pc))).
  intros pc e pc' HP Hstep.
  destruct (step_cases _ _ _ Hstep) as [[E _]|[(s & l1 & l2 & E & _)|[E _]]];
    rewrite E; auto.
Qed.

End PacingFacts.

(** ** The counters of [runTest] *)

Lemma recordSettlement_counts (s : Settlement) (t : LoadTester) :
  config (recordSettlement s t) = config t /\
  results (recordSettlement s t) = results t /\
  isRunning (recordSettlement s t) = isRunning t /\
  requestCount (recordSettlement s t) = S (requestCount t) /\
  errorCount (recordSettlement s t)
    = (if countedAsError s then S (errorCount t) else errorCount t) /\
  responseTimes (recordSettlement s t) = responseTimes t ++ [recordedTime s].
Proof.
  destruct s as [r|e]; simpl; repeat split.
  destruct (success r); reflexivity.
Qed.

Lemma consistent_step (c : Config) (res : list Phase.Result)
    (cfg : Config) (table : list Scenario) (endTime interval : number)
    (pc pc' : Pacer LoadTester) (e : Event) :
  consistent c res pc ->
  step LoadTester isRunning recordSettlement stop cfg table endTime interval pc e = Some pc' ->
  consistent c res pc'.
Proof.
  intros (Hc & Hr & Hn & He & Hp) Hstep. unfold consistent.
  destruct (step_cases _ _ _ _ _ _ _ _ _ _ _ Hstep)
    as [[E1 E2]|[(s & l1 & l2 & E1 & E2 & E3)|[E1 E2]]].
  - rewrite E1, E2. repeat split; assumption.
  - destruct (recordSettlement_counts s (state pc)) as (Rc & Rr & _ & Rn & Re & Rt).
    rewrite E1, E3, Rc, Rr, Rn, Re, Rt. rewrite E2 in Hn, He, Hp.
    repeat split; try assumption.
    + rewrite Hn, !length_app. simpl. lia.
    + rewrite He, !filter_app, !length_app. simpl.
      destruct (countedAsError s); simpl; lia.
    + rewrite map_app in *. simpl.
      eapply perm_trans; [apply Permutation_sym, Permutation_cons_append|].
      apply Permutation_cons_app. exact Hp.
  - rewrite E1, E2. repeat split; assumption.
Qed.

(** While a phase of [runTest] runs, [requestCount], [errorCount] and
    [responseTimes] account for exactly the requests settled so far. *)
Lemma runPhase_consistent (t : LoadTester) (tps : Q) (env : PhaseEnv)
    (pc : Pacer LoadTester) :
  runPhase t tps env = Some pc -> consistent (config t) (results t) pc.
Proof.
  unfold runPhase.
  apply (run_preserves _ _ _ _ _ _ _ _ (consistent (config t) (results t))).
  - intros pc0 e pc1. apply consistent_step.
  - unfold consistent. simpl. repeat split. constructor.
Qed.

Lemma joined_all_settled {State : Type} (pc : Pacer State) :
  joined pc = true ->
  pacing pc = false /\ forallb isSettled (requestPromises pc) = true.
Proof.
  unfold joined. rewrite andb_true_iff, negb_true_iff. tauto.
Qed.

Lemma runTest_returns (t : LoadTester) (tps : Q) (name : string) (env : PhaseEnv)
    (pc : Pacer LoadTester) :
  runPhase t tps env = Some pc -> joined pc = true ->
  runTest t tps name env = Returns (summarize (state pc) tps name).
Proof. intros H J. unfold runTest. now rewrite H, J. Qed.

(** C8. When [runTest] gets past its join, every request it dispatched has
    settled and has contributed exactly one response time: the recorded
    times are, up to order, the times of the settlements; their number, the
    number of dispatched requests and [totalRequests] agree; and
    [errorCount] does not exceed that number. *)
Theorem every_dispatched_request_recorded
    (t : LoadTester) (tps : Q) (name : string) (env : PhaseEnv) (pc : Pacer LoadTester) :
  runPhase t tps env = Some pc ->
  joined pc = true ->
  exists t' r,
    runTest t tps name env = Returns (t', r) /\
    Forall (fun p => isSettled p = true) (requestPromises pc) /\
    Permutation (responseTimes t')
                (map recordedTime (settlements (requestPromises pc))) /\
    List.length (responseTimes t') = List.length (requestPromises pc) /\
    Phase.totalRequests r = List.length (requestPromises pc) /\
    (Phase.errorCount r <= Phase.totalRequests r)%nat.
Proof.
  intros Hrun Hj.
  exists (fst (summarize (state pc) tps name)), (snd (summarize (state pc) tps name)).
  destruct (runPhase_consistent _ _ _ _ Hrun) as (_ & _ & Hn & He & Hp).
  destruct (joined_all_settled pc Hj) as [_ Hall].
  pose proof (all_settled_length _ Hall) as Hlen.
  split; [rewrite <- surjective_pairing; now apply runTest_returns|].
  split; [apply Forall_forall; intros p Hin;
          rewrite forallb_forall in Hall; now apply Hall|].
  simpl. split; [|split; [|split]].
  - eapply perm_trans; [apply sortAscending_perm | exact Hp].
  - rewrite sortAscending_length, (Permutation_length Hp), length_map. exact Hlen.
  - now rewrite Hn.
  - rewrite Hn, He. apply filter_length_le.
Qed.

Lemma every_dispatched_request_recorded_witness :
  exists t' r,
    runTest (newLoadTester defaultConfig) 5 "5TPS" mixedEnv = Returns (t', r) /\
    List.length (responseTimes t') = 3%nat /\
    Phase.totalRequests r = 3%nat /\
    (Phase.errorCount r <= Phase.totalRequests r)%nat.
Proof.
  destruct (every_dispatched_request_recorded
              (newLoadTester defaultConfig) 5 "5TPS" mixedEnv
              (phaseOf (newLoadTester defaultConfig) 5 mixedEnv)
              eq_refl eq_refl)
    as (t' & r & H1 & _ & _ & H2 & H3 & H4).
  exists t', r. repeat split; assumption.
Defined.

(** ** Error rates *)

Lemma no_errors_when_all_succeeded (ps : list Promise) :
  Forall succeeded ps -> filter countedAsError (settlements ps) = [].
Proof.
  induction 1 as [|p ps (r & -> & Hr) _ IH]; [reflexivity|].
  unfold settlements in *. simpl. rewrite Hr. exact IH.
Qed.

Lemma all_errors_when_all_failed (ps : list Promise) :
  Forall failed ps -> filter countedAsError (settlements ps) = settlements ps.
Proof.
  induction 1 as [|p ps (s & -> & Hs) _ IH]; [reflexivity|].
  unfold settlements in *. simpl. rewrite Hs, IH. reflexivity.
Qed.

(** C6. For a phase with at least one settled request, [errorRate] is 0
    when every request ended with [success = true] and 100 when every
    request ended without success. *)
Theorem error_rate_all_or_nothing
    (t : LoadTester) (tps : Q) (name : string) (env : PhaseEnv) (pc : Pacer LoadTester) :
  runPhase t tps env = Some pc ->
  joined pc = true ->
  requestPromises pc <> [] ->
  exists t' r,
    runTest t tps name env = Returns (t', r) /\
    (Forall succeeded (requestPromises pc) -> Phase.errorRate r = Fin 0) /\
    (Forall failed (requestPromises pc) -> Phase.errorRate r = Fin 100).
Proof.
  intros Hrun Hj Hne.
  exists (fst (summarize (state pc) tps name)), (snd (summarize (state pc) tps name)).
  destruct (runPhase_consistent _ _ _ _ Hrun) as (_ & _ & Hn & He & _).
  destruct (joined_all_settled pc Hj) as [_ Hall].
  pose proof (all_settled_length _ Hall) as Hlen.
  assert (Hpos : requestCount (state pc) <> 0%nat).
  { rewrite Hn, Hlen. destruct (requestPromises pc); [congruence | discriminate]. }
  split; [rewrite <- surjective_pairing; now apply runTest_returns|].
  simpl. split; intros Hevery.
  - rewrite He, (no_errors_when_all_succeeded _ Hevery). simpl List.length.
    now apply rate_none.
  - rewrite He, (all_errors_when_all_failed _ Hevery), <- Hn.
    now apply rate_all.
Qed.

Lemma error_rate_all_or_nothing_witness :
  (exists t' r,
     runTest (newLoadTester defaultConfig) 5 "5TPS" oneRequestEnv = Returns (t', r) /\
     Phase.errorRate r = Fin 0) /\
  (exists t' r,
     runTest (newLoadTester defaultConfig) 10 "10TPS" refusedEnv = Returns (t', r) /\
     Phase.errorRate r = Fin 100).
Proof.
  split.
  - destruct (error_rate_all_or_nothing
                (newLoadTester defaultConfig) 5 "5TPS" oneRequestEnv
                (phaseOf (newLoadTester defaultConfig) 5 oneRequestEnv)
                eq_refl eq_refl ltac:(discriminate))
      as (t' & r & H1 & H2 & _).
    exists t', r. split; [exact H1|]. apply H2.
    repeat constructor. eexists. split; reflexivity.
  - destruct (error_rate_all_or_nothing
                (newLoadTester defaultConfig) 10 "10TPS" refusedEnv
                (phaseOf (newLoadTester defaultConfig) 10 refusedEnv)
                eq_refl eq_refl ltac:(discriminate))
      as (t' & r & H1 & _ & H2).
    exists t', r. split; [exact H1|]. apply H2.
    repeat constructor; eexists; split; reflexivity.
Defined.

(** ** A phase without requests *)

Lemma summarize_fields (t : LoadTester) (tps : Q) (name : string) :
  let t' := fst (summarize t tps name) in
  let r := snd (summarize t tps name) in
  config t' = config t /\
  results t' = results t ++ [r] /\
  responseTimes t' = sortAscending (responseTimes t) /\
  Phase.testName r = name /\
  Phase.targetTPS r = tps /\
  Phase.totalRequests r = requestCount t /\
  Phase.errorCount r = errorCount t.
Proof. simpl. repeat split. Qed.

Lemma empty_phase_counters (t : LoadTester) (tps : Q) (env : PhaseEnv)
    (pc : Pacer LoadTester) :
  runPhase t tps env = Some pc ->
  requestPromises pc = [] ->
  config (state pc) = config t /\ results (state pc) = results t /\
  requestCount (state pc) = 0%nat /\ errorCount (state pc) = 0%nat /\
  responseTimes (state pc) = [].
Proof.
  intros Hrun Hnone.
  destruct (runPhase_consistent _ _ _ _ Hrun) as (Hc & Hr & Hn & He & Hp).
  rewrite Hnone in *. simpl in *.
  apply Permutation_sym, Permutation_nil in Hp. auto.
Qed.

Lemma runEvents_joined (State : Type) (keepRunning : State -> bool)
    (onSettled : Settlement -> State -> State) (onStop : State -> State)
    (cfg : Config) (table : list Scenario) (endTime interval : number)
    (evs : list Event) (pc : Pacer State) :
  joined pc = true ->
  runEvents State keepRunning onSettled onStop cfg table endTime interval pc evs = Some pc.
Proof.
  intros Hj. induction evs as [|e evs IH]; [reflexivity|].
  simpl. unfold step. rewrite Hj. exact IH.
Qed.

(** When the clock is already at the end of the phase the first time the
    loop condition is evaluated, [runTest] dispatches nothing and goes
    straight through its join. *)
Lemma late_first_pass_joins (t : LoadTester) (tps : Q) (env : PhaseEnv)
    (condNow bodyNow : Z) (random : Q) (exec : ExecutorOutcome) (rest : list Event) :
  events env = LoopPass condNow bodyNow random exec :: rest ->
  Num.ltb (Num.of_Z condNow) (phaseEnd (startNow env) (duration (config t))) = false ->
  exists pc,
    runPhase t tps env = Some pc /\ joined pc = true /\ requestPromises pc = [].
Proof.
  intros Hev Hlate. unfold runPhase. rewrite Hev.
  cbn [runEvents]. unfold step at 1. cbn [joined startPacer pacing negb andb].
  unfold loopPass. cbn [state config resetCounters]. rewrite Hlate. cbn [andb].
  eexists. split; [apply runEvents_joined; reflexivity|]. split; reflexivity.
Qed.

(** C3, as the code has it. A phase that gets past its join without having
    dispatched any request still makes [runTest] return a result record,
    with [totalRequests] and [errorCount] 0 and all latency statistics 0,
    appended to [this.results]; and the sweep goes on with the next rate. *)
Theorem phase_without_requests_completes
    (t : LoadTester) (tps : Z) (env : PhaseEnv) (pc : Pacer LoadTester) :
  runPhase t (inject_Z tps) env = Some pc ->
  joined pc = true ->
  requestPromises pc = [] ->
  exists t' r,
    runTest t (inject_Z tps) (tpsLabel tps) env = Returns (t', r) /\
    Phase.totalRequests r = 0%nat /\
    Phase.errorCount r = 0%nat /\
    Phase.stats r = zeroStats /\
    results t' = results t ++ [r] /\
    forall levels envs,
      sweep t (tps :: levels) (env :: envs) = sweep t' levels envs.
Proof.
  intros Hrun Hj Hnone.
  destruct (empty_phase_counters _ _ _ _ Hrun Hnone) as (Hc & Hr & Hn & He & Ht).
  pose proof (runTest_returns t (inject_Z tps) (tpsLabel tps) env pc Hrun Hj) as Hret.
  exists (fst (summarize (state pc) (inject_Z tps) (tpsLabel tps))),
         (snd (summarize (state pc) (inject_Z tps) (tpsLabel tps))).
  split; [rewrite <- surjective_pairing; exact Hret|].
  split; [exact Hn|]. split; [exact He|]. split; [|split].
  - simpl. unfold calculateStats. simpl. rewrite Ht. reflexivity.
  - simpl. now rewrite Hr.
  - intros levels envs.
    change (sweep t (tps :: levels) (env :: envs))
      with (match runTest t (inject_Z tps) (tpsLabel tps) env with
            | Returns (t', _) => sweep t' levels envs
            | Suspended => Suspended
            | Throws => Throws
            end).
    rewrite Hret.
    destruct (summarize (state pc) (inject_Z tps) (tpsLabel tps)). reflexivity.
Qed.

Lemma phase_without_requests_completes_witness :
  exists t' r,
    runTest (newLoadTester briefConfig) (inject_Z 5) (tpsLabel 5) lateEnv
      = Returns (t', r) /\
    Phase.totalRequests r = 0%nat /\
    Phase.stats r = zeroStats /\
    results t' = [r] /\
    sweep (newLoadTester briefConfig) [5; 10] [lateEnv; lateEnv]
      = sweep t' [10] [lateEnv].
Proof.
  destruct (phase_without_requests_completes
              (newLoadTester briefConfig) 5 lateEnv
              (phaseOf (newLoadTester briefConfig) (inject_Z 5) lateEnv)
              eq_refl eq_refl eq_refl)
    as (t' & r & H1 & H2 & _ & H3 & H4 & H5).
  exists t', r. repeat split; try assumption. apply H5.
Defined.

(** C3 as claimed fails: in a phase of one millisecond whose first look at
    the clock comes a millisecond after the start, the loop of [runTest]
    never runs, no request is dispatched, and the [errorRate] of the result
    is not 100. *)
Lemma idle_phase_error_rate_not_100 :
  exists t' r,
    runTest (newLoadTester briefConfig) 5 "5TPS" lateEnv = Returns (t', r) /\
    requestPromises (phaseOf (newLoadTester briefConfig) 5 lateEnv) = [] /\
    Phase.totalRequests r = 0%nat /\
    Phase.errorRate r <> Fin 100.
Proof.
  eexists. eexists. split; [reflexivity|]. split; [reflexivity|].
  split; [reflexivity|]. discriminate.
Qed.

(** C4, the code at a phase without results. [calculateStats] returns 0 for
    the six latency statistics, and [runTest] computes
    [errorRate = (0 / 0) * 100], which is NaN where the claim has 0. *)
Theorem empty_phase_error_rate_is_nan
    (t : LoadTester) (tps : Q) (name : string) (env : PhaseEnv) (pc : Pacer LoadTester) :
  runPhase t tps env = Some pc ->
  joined pc = true ->
  requestPromises pc = [] ->
  exists t' r,
    runTest t tps name env = Returns (t', r) /\
    calculateStats t' = zeroStats /\
    Phase.stats r = zeroStats /\
    Phase.errorRate r = NaN.
Proof.
  intros Hrun Hj Hnone.
  destruct (empty_phase_counters _ _ _ _ Hrun Hnone) as (Hc & Hr & Hn & He & Ht).
  exists (fst (summarize (state pc) tps name)), (snd (summarize (state pc) tps name)).
  split; [rewrite <- surjective_pairing; now apply runTest_returns|].
  simpl. unfold calculateStats. simpl. rewrite Ht, Hn, He. repeat split.
Qed.

Lemma empty_phase_error_rate_is_nan_witness :
  exists t' r,
    runTest (newLoadTester briefConfig) 5 "5TPS" lateEnv = Returns (t', r) /\
    Phase.stats r = zeroStats /\
    Phase.errorRate r = NaN.
Proof.
  destruct (empty_phase_error_rate_is_nan
              (newLoadTester briefConfig) 5 "5TPS" lateEnv
              (phaseOf (newLoadTester briefConfig) 5 lateEnv)
              eq_refl eq_refl eq_refl)
    as (t' & r & H1 & _ & H2 & H3).
  exists t', r. repeat split; assumption.
Defined.

(** ** Failures recorded with a response time of 0 *)

Lemma recordedTime_zero (e : Rejection) :
  noPositiveResponseTime e -> recordedTime (Rejected e) = 0%Q.
Proof.
  unfold noPositiveResponseTime, recordedTime, or_default.
  destruct e as [msg rt ok|msg]; simpl; [|reflexivity].
  intros H. unfold Num.is_zero. now rewrite (Qeq_eq_bool _ _ H).
Qed.

Lemma sorted_head_is_min (h : Q) (l : list Q) :
  StronglySorted Qle (h :: l) -> forall x, In x (h :: l) -> (h <= x)%Q.
Proof.
  intros Hs x [<-|Hin]; [lra|].
  inversion Hs as [|? ? _ Hall]; subst.
  rewrite Forall_forall in Hall. now apply Hall.
Qed.

Lemma settled_in_settlements (ps : list Promise) (s : Settlement) :
  In (Settled s) ps -> In s (settlements ps).
Proof.
  intros Hin. unfold settlements. apply in_flat_map.
  exists (Settled s). split; [exact Hin | now left].
Qed.

(** C10. A rejection whose [responseTime] is missing or 0 is recorded by
    the handler of [runTest] with a response time of exactly 0; when the
    other recorded times are not negative, that 0 is the minimum response
    time of the phase. *)
Theorem failure_without_response_time_records_zero
    (t : LoadTester) (tps : Q) (name : string) (env : PhaseEnv)
    (pc : Pacer LoadTester) (e : Rejection) :
  runPhase t tps env = Some pc ->
  joined pc = true ->
  In (Settled (Rejected e)) (requestPromises pc) ->
  noPositiveResponseTime e ->
  Forall (fun x => (0 <= x)%Q) (responseTimes (state pc)) ->
  (forall t0, responseTimes (recordError e t0) = responseTimes t0 ++ [0%Q]) /\
  exists t' r,
    runTest t tps name env = Returns (t', r) /\
    In 0%Q (responseTimes t') /\
    exists m, minResponseTime (Phase.stats r) = Some m /\ m == 0.
Proof.
  intros Hrun Hj Hin Hnone Hnonneg.
  pose proof (recordedTime_zero e Hnone) as Hzero.
  split.
  { intros t0. simpl. simpl in Hzero. now rewrite Hzero. }
  destruct (runPhase_consistent _ _ _ _ Hrun) as (_ & _ & _ & _ & Hp).
  assert (Hrec : In 0%Q (responseTimes (state pc))).
  { eapply Permutation_in; [apply Permutation_sym, Hp|].
    rewrite <- Hzero. apply in_map. now apply settled_in_settlements. }
  pose proof (sortAscending_perm (responseTimes (state pc))) as Hsort.
  pose proof (sortAscending_sorted (responseTimes (state pc))) as Hsorted.
  assert (Hrec' : In 0%Q (sortAscending (responseTimes (state pc)))).
  { eapply Permutation_in; [apply Permutation_sym, Hsort | exact Hrec]. }
  assert (Hnonneg' : Forall (fun x => (0 <= x)%Q) (sortAscending (responseTimes (state pc)))).
  { eapply Permutation_Forall; [apply Permutation_sym, Hsort | exact Hnonneg]. }
  exists (fst (summarize (state pc) tps name)), (snd (summarize (state pc) tps name)).
  split; [rewrite <- surjective_pairing; now apply runTest_returns|].
  split; [exact Hrec'|].
  simpl. unfold calculateStats. simpl responseTimes.
  destruct (sortAscending (responseTimes (state pc))) as [|h rest] eqn:E;
    [destruct Hrec'|].
  unfold arrayLength. simpl List.length.
  destruct (Z.eqb_spec (Z.of_nat (S (List.length rest))) 0) as [H0|_]; [lia|].
  simpl. exists h. split; [reflexivity|].
  pose proof (sorted_head_is_min h rest Hsorted 0%Q Hrec') as Hle.
  rewrite Forall_forall in Hnonneg'. pose proof (Hnonneg' h (or_introl eq_refl)).
  lra.
Qed.

Lemma failure_without_response_time_records_zero_witness :
  exists t' r,
    runTest (newLoadTester defaultConfig) 5 "5TPS" thrownEnv = Returns (t', r) /\
    responseTimes t' = [0; 0; 12]%Q /\
    (exists m, minResponseTime (Phase.stats r) = Some m /\ m == 0) /\
    p50ResponseTime (Phase.stats r) = Some 0%Q.
Proof.
  assert (Hnonneg : Forall (fun x => (0 <= x)%Q)
            (responseTimes (state (phaseOf (newLoadTester defaultConfig) 5 thrownEnv)))).
  { repeat constructor; unfold Qle; simpl; lia. }
  destruct (failure_without_response_time_records_zero
              (newLoadTester defaultConfig) 5 "5TPS" thrownEnv
              (phaseOf (newLoadTester defaultConfig) 5 thrownEnv)
              (Exception "Invalid URL")
              eq_refl eq_refl (or_introl eq_refl) I Hnonneg)
    as (_ & t' & r & H1 & _ & H2).
  pose proof H1 as E. vm_compute in E. injection E as <- <-.
  eexists. eexists. split; [exact H1|].
  split; [reflexivity|]. split; [exact H2 | reflexivity].
Defined.

(** ** [runTest] does not throw *)

Lemma selectScenario_defined (table : list Scenario) (random : Q) :
  table <> [] -> (0 <= random < 1)%Q ->
  exists s, selectScenario table random = Some s.
Proof.
  intros Hne Hr.
  assert (Hlen : (0 < List.length table)%nat).
  { destruct table; [congruence | simpl; lia]. }
  pose proof (drawIndex_in_range _ random Hlen Hr) as [Hlo Hhi].
  unfold selectScenario, at_index.
  destruct (Z.ltb_spec (drawIndex (List.length table) random) 0); [lia|].
  destruct (nth_error table (Z.to_nat (drawIndex (List.length table) random))) eqn:E.
  - eexists. reflexivity.
  - apply nth_error_None in E. lia.
Qed.

Lemma runEvents_defined (State : Type) (keepRunning : State -> bool)
    (onSettled : Settlement -> State -> State) (onStop : State -> State)
    (cfg : Config) (table : list Scenario) (endTime interval : number)
    (evs : list Event) :
  table <> [] -> drawsInRange evs ->
  forall pc,
    runEvents State keepRunning onSettled onStop cfg table endTime interval pc evs <> None.
Proof.
  intros Hne. induction 1 as [|e evs He _ IH]; intros pc; [discriminate|].
  simpl.
  assert (Hstep : exists pc',
            step State keepRunning onSettled onStop cfg table endTime interval pc e
            = Some pc').
  { unfold step. destruct (joined pc); [eexists; reflexivity|].
    destruct e as [condNow bodyNow random exec|k ev|]; try (eexists; reflexivity).
    destruct (pacing pc); [|eexists; reflexivity].
    unfold loopPass.
    destruct (Num.ltb (Num.of_Z condNow) endTime && keepRunning (state pc));
      [|eexists; reflexivity].
    destruct (Num.geb (Num.of_Z bodyNow) (nextRequestTime pc)); [|eexists; reflexivity].
    unfold dispatch.
    destruct (selectScenario_defined table random Hne He) as [s ->].
    eexists. reflexivity. }
  destruct Hstep as [pc' ->]. apply IH.
Qed.

(** With every [Math.random()] in the unit interval the drawn scenario is
    never [undefined], so [runTest] returns or stays suspended. *)
Lemma runTest_does_not_throw (t : LoadTester) (tps : Q) (name : string) (env : PhaseEnv) :
  drawsInRange (events env) -> runTest t tps name env <> Throws.
Proof.
  intros Hdraws. unfold runTest.
  destruct (runPhase t tps env) as [pc|] eqn:Hrun.
  - destruct (joined pc); discriminate.
  - exfalso. unfold runPhase in Hrun. revert Hrun.
    apply runEvents_defined; [discriminate | exact Hdraws].
Qed.

(** ** Phases do not see each other *)

Section PacingMap.

Variables A B : Type.
Variable f : A -> B.
Variable keepA : A -> bool.
Variable keepB : B -> bool.
Variable onA : Settlement -> A -> A.
Variable onB : Settlement -> B -> B.
Variable stopA : A -> A.
Variable stopB : B -> B.
Hypothesis keep_f : forall a, keepB (f a) = keepA a.
Hypothesis on_f : forall s a, onB s (f a) = f (onA s a).
Hypothesis stop_f : forall a, stopB (f a) = f (stopA a).

Variable cfg : Config.
Variable weightedScenarios : list Scenario.
Variable endTime : number.
Variable interval : number.

Lemma step_map (pc : Pacer A) (e : Event) :
  step B keepB onB stopB cfg weightedScenarios endTime interval (mapPacer f pc) e
  = option_map (mapPacer f)
      (step A keepA onA stopA cfg weightedScenarios endTime interval pc e).
Proof.
  unfold step. change (joined (mapPacer f pc)) with (joined pc).
  destruct (joined pc); [reflexivity|].
  destruct e as [condNow bodyNow random exec|k ev|].
  - change (pacing (mapPacer f pc)) with (pacing pc).
    destruct (pacing pc); [|reflexivity].
    unfold loopPass. simpl state. simpl nextRequestTime. rewrite keep_f.
    destruct (Num.ltb (Num.of_Z condNow) endTime && keepA (state pc)); [|reflexivity].
    destruct (Num.geb (Num.of_Z bodyNow) (nextRequestTime pc)); [|reflexivity].
    unfold dispatch.
    destruct (selectScenario weightedScenarios random); [|reflexivity].
    destruct exec; simpl; unfold mapPacer; simpl; [reflexivity|].
    now rewrite on_f.
  - unfold settle. simpl requestPromises.
    destruct (nth_error (requestPromises pc) k) as [[startTime|s]|]; try reflexivity.
    simpl. unfold mapPacer. simpl. now rewrite on_f.
  - simpl. unfold mapPacer. simpl. now rewrite stop_f.
Qed.

Lemma runEvents_map (evs : list Event) (pc : Pacer A) :
  runEvents B keepB onB stopB cfg weightedScenarios endTime interval (mapPacer f pc) evs
  = option_map (mapPacer f)
      (runEvents A keepA onA stopA cfg weightedScenarios endTime interval pc evs).
Proof.
  revert pc. induction evs as [|e evs IH]; intros pc; [reflexivity|].
  simpl. rewrite step_map.
  destruct (step A keepA onA stopA cfg weightedScenarios endTime interval pc e);
    [apply IH | reflexivity].
Qed.

End PacingMap.

(** Two testers with the same configuration go through a phase in step;
    only the earlier results they carry along differ. *)
Lemma runPhase_same_config (t1 t2 : LoadTester) (tps : Q) (env : PhaseEnv) :
  config t1 = config t2 ->
  runPhase t2 tps env
  = option_map (mapPacer (withResults (results t2))) (runPhase t1 tps env).
Proof.
  intros Hc. unfold runPhase.
  assert (E : startPacer LoadTester (resetCounters t2) (startNow env)
              = mapPacer (withResults (results t2))
                  (startPacer LoadTester (resetCounters t1) (startNow env))).
  { unfold startPacer, mapPacer, withResults, resetCounters. simpl. now rewrite Hc. }
  rewrite E.
  rewrite (runEvents_map LoadTester LoadTester (withResults (results t2))
             isRunning isRunning recordSettlement recordSettlement stop stop).
  - simpl config. rewrite Hc. reflexivity.
  - reflexivity.
  - intros [r|e] a; reflexivity.
  - reflexivity.
Qed.

Lemma runTest_ignores_earlier_state (t1 t2 : LoadTester) (tps : Q) (name : string)
    (env : PhaseEnv) (t1' : LoadTester) (r : Phase.Result) :
  config t1 = config t2 ->
  runTest t1 tps name env = Returns (t1', r) ->
  exists t2', runTest t2 tps name env = Returns (t2', r).
Proof.
  intros Hc. unfold runTest. rewrite (runPhase_same_config t1 t2 tps env Hc).
  destruct (runPhase t1 tps env) as [pc|]; [|discriminate]. cbn [option_map].
  destruct (joined pc) eqn:J; [|discriminate].
  assert (J' : joined (mapPacer (withResults (results t2)) pc) = true) by exact J.
  rewrite J'. intros H.
  assert (Hr : r = snd (summarize (state pc) tps name)).
  { pose proof (f_equal (fun c => match c with Returns x => snd x | _ => r end) H) as E.
    change (snd (summarize (state pc) tps name) = r) in E. now symmetry. }
  exists (fst (summarize (state (mapPacer (withResults (results t2)) pc)) tps name)).
  rewrite Hr. apply f_equal.
  rewrite (surjective_pairing
             (summarize (state (mapPacer (withResults (results t2)) pc)) tps name)) at 1.
  reflexivity.
Qed.

Lemma runTest_appends (t : LoadTester) (tps : Q) (name : string) (env : PhaseEnv)
    (t' : LoadTester) (r : Phase.Result) :
  runTest t tps name env = Returns (t', r) ->
  config t' = config t /\
  results t' = results t ++ [r] /\
  Phase.targetTPS r = tps /\
  Phase.testName r = name.
Proof.
  unfold runTest. destruct (runPhase t tps env) as [pc|] eqn:Hrun; [|discriminate].
  destruct (joined pc); [|discriminate].
  destruct (runPhase_consistent _ _ _ _ Hrun) as (Hc & Hr & _).
  intros [= <- <-]. simpl. rewrite Hc, Hr. repeat split.
Qed.

(** [runWarmup] counts in local variables: it hands the tester back with
    its configuration, results and counters as they were. *)
Lemma runWarmup_keeps_tester (t : LoadTester) (env : PhaseEnv)
    (t1 : LoadTester) (report : WarmupReport) :
  runWarmup t env = Returns (t1, report) ->
  config t1 = config t /\ results t1 = results t /\
  requestCount t1 = requestCount t /\ errorCount t1 = errorCount t /\
  responseTimes t1 = responseTimes t.
Proof.
  unfold runWarmup. destruct (warmupPhase t env) as [pc|] eqn:Hrun; [|discriminate].
  destruct (joined pc); [|discriminate].
  intros [= <- _]. unfold warmupPhase in Hrun.
  apply (run_state_invariant _ _ _ _ _ _ _ _
           (fun w => config (tester w) = config t /\ results (tester w) = results t /\
                     requestCount (tester w) = requestCount t /\
                     errorCount (tester w) = errorCount t /\
                     responseTimes (tester w) = responseTimes t))
    in Hrun.
  - exact Hrun.
  - intros s w H. exact H.
  - intros w H. exact H.
  - simpl. repeat split.
Qed.

Lemma sweep_results (levels : list Z) :
  forall (envs : list PhaseEnv) (t t' : LoadTester),
  sweep t levels envs = Returns t' ->
  config t' = config t /\
  exists phases,
    results t' = results t ++ phases /\
    map Phase.targetTPS phases = map inject_Z levels /\
    map Phase.testName phases = map tpsLabel levels /\
    Forall2 (fun r le => freshResult (config t) r (fst le) (snd le))
            phases (combine levels envs).
Proof.
  induction levels as [|tps levels IH]; intros envs t t' Hsweep.
  - injection Hsweep as <-. split; [reflexivity|].
    exists []. rewrite app_nil_r. repeat split. constructor.
  - destruct envs as [|env envs]; [discriminate|].
    simpl in Hsweep.
    destruct (runTest t (inject_Z tps) (tpsLabel tps) env) as [[t1 r]| |] eqn:Hrun;
      try discriminate.
    destruct (runTest_appends _ _ _ _ _ _ Hrun) as (Hc & Hr & Htps & Hname).
    destruct (IH envs t1 t' Hsweep) as (Hc' & phases & Hr' & Ht' & Hn' & Hall).
    split; [congruence|].
    exists (r :: phases). split; [|split; [|split]].
    + rewrite Hr', Hr, <- app_assoc. reflexivity.
    + simpl. now rewrite Htps, Ht'.
    + simpl. now rewrite Hname, Hn'.
    + simpl. constructor.
      * intros fresh Hfresh. simpl.
        eapply runTest_ignores_earlier_state; [|exact Hrun]. congruence.
      * rewrite Hc in Hall. exact Hall.
Qed.

(** C9. When [runFullBenchmark] returns, the warm-up has added nothing to
    the results, and the sweep has appended exactly one result per rate of
    [tpsLevels], in the ascending order of that list; each of them is the result [runTest] gives
    from any tester with the same configuration, so nothing of an earlier
    phase's counters, response times or results enters it. *)
Theorem benchmark_results_follow_sweep
    (t : LoadTester) (url : string) (env : BenchmarkEnv)
    (t' : LoadTester) (rs : list Phase.Result) :
  runFullBenchmark t url env = Returns (t', rs) ->
  (exists t1 report,
     runWarmup (setBaseUrl t url) (warmupEnv env) = Returns (t1, report) /\
     results t1 = results t) /\
  StronglySorted Z.lt tpsLevels /\
  exists phases,
    rs = results t ++ phases /\
    results t' = rs /\
    map Phase.targetTPS phases = map inject_Z tpsLevels /\
    map Phase.testName phases = map tpsLabel tpsLevels /\
    Forall2 (fun r le => freshResult (config (setBaseUrl t url)) r (fst le) (snd le))
            phases (combine tpsLevels (sweepEnvs env)).
Proof.
  unfold runFullBenchmark.
  destruct (runWarmup (setBaseUrl t url) (warmupEnv env)) as [[t1 report]| |] eqn:Hw;
    try discriminate.
  destruct (sweep t1 tpsLevels (sweepEnvs env)) as [t2| |] eqn:Hs; try discriminate.
  intros [= <- <-].
  destruct (runWarmup_keeps_tester _ _ _ _ Hw) as (Hc1 & Hr1 & _).
  destruct (sweep_results _ _ _ _ Hs) as (Hc2 & phases & Hr2 & Htps & Hnames & Hall).
  split; [|split].
  - exists t1, report. split; [reflexivity | exact Hr1].
  - unfold tpsLevels. repeat constructor.
  - exists phases. rewrite Hr2, Hr1. simpl results.
    repeat split; try assumption. rewrite Hc1 in Hall. exact Hall.
Qed.

Lemma benchmark_results_follow_sweep_witness :
  exists phases,
    snd (outcomeOf (newLoadTester defaultConfig) "http://localhost:3000" sampleBenchmarkEnv)
      = phases /\
    map Phase.targetTPS phases = [5; 10; 15; 30; 40; 100; 1000]%Q /\
    map Phase.totalRequests phases = [1; 3; 2; 1; 1; 3; 1]%nat.
Proof.
  assert (Hrun : runFullBenchmark (newLoadTester defaultConfig) "http://localhost:3000"
                   sampleBenchmarkEnv
                 = Returns (fst (outcomeOf (newLoadTester defaultConfig)
                                   "http://localhost:3000" sampleBenchmarkEnv),
                            snd (outcomeOf (newLoadTester defaultConfig)
                                   "http://localhost:3000" sampleBenchmarkEnv))).
  { vm_compute. reflexivity. }
  destruct (benchmark_results_follow_sweep _ _ _ _ _ Hrun)
    as (_ & _ & phases & H1 & _ & H2 & _).
  assert (E : snd (outcomeOf (newLoadTester defaultConfig) "http://localhost:3000"
                     sampleBenchmarkEnv) = phases) by exact H1.
  exists phases. split; [exact E|]. split; [exact H2|].
  rewrite <- E. vm_compute. reflexivity.
Defined.

(** ** More on percentiles and statistics *)

Lemma at_index_some (l : list Q) (i : Z) :
  0 <= i < Z.of_nat (List.length l) ->
  exists x, at_index l i = Some x /\ In x l.
Proof.
  intros [Hlo Hhi]. unfold at_index.
  destruct (Z.ltb_spec i 0); [lia|].
  destruct (nth_error l (Z.to_nat i)) as [x|] eqn:E.
  - exists x. split; [reflexivity|]. eapply nth_error_In, E.
  - apply nth_error_None in E. lia.
Qed.

Lemma sorted_nth_le (l : list Q) :
  StronglySorted Qle l ->
  forall (a b : nat) (x y : Q),
    (a <= b)%nat -> nth_error l a = Some x -> nth_error l b = Some y -> (x <= y)%Q.
Proof.
  induction 1 as [|h l Hs IH Hall]; intros a b x y Hab Ha Hb.
  - destruct a; discriminate.
  - destruct a as [|a]; destruct b as [|b]; simpl in Ha, Hb.
    + injection Ha as <-. injection Hb as <-. lra.
    + injection Ha as <-. rewrite Forall_forall in Hall.
      apply Hall. eapply nth_error_In, Hb.
    + lia.
    + apply (IH a b); [lia | assumption | assumption].
Qed.

Lemma sorted_at_index_le (l : list Q) (i j : Z) (x y : Q) :
  StronglySorted Qle l ->
  i <= j ->
  at_index l i = Some x -> at_index l j = Some y -> (x <= y)%Q.
Proof.
  unfold at_index. intros Hs Hij.
  destruct (Z.ltb_spec i 0); [discriminate|].
  destruct (Z.ltb_spec j 0); [discriminate|].
  apply (sorted_nth_le l Hs). lia.
Qed.

Lemma percentile_reads_index (t : LoadTester) (p : Q) :
  percentile t p
  = at_index (responseTimes t) (percentileIndex (arrayLength (responseTimes t)) p).
Proof. reflexivity. Qed.

Lemma percentileIndex_range (n : Z) (p : Q) :
  1 <= n -> 0 <= percentileIndex n p <= n - 1.
Proof. unfold percentileIndex. lia. Qed.

Lemma div100_le (p q : Q) : (p <= q)%Q -> (p / 100 <= q / 100)%Q.
Proof.
  intros H. unfold Qdiv. apply Qmult_le_compat_r; [exact H|].
  unfold Qle. simpl. lia.
Qed.

Lemma percentileIndex_mono (n : Z) (p q : Q) :
  0 <= n -> (p <= q)%Q -> percentileIndex n p <= percentileIndex n q.
Proof.
  intros Hn Hpq. unfold percentileIndex.
  assert (H : Qceiling (p / 100 * inject_Z n) <= Qceiling (q / 100 * inject_Z n)).
  { apply Qceiling_resp_le. apply Qmult_le_compat_r.
    - now apply div100_le.
    - change 0%Q with (inject_Z 0). now rewrite <- Zle_Qle. }
  lia.
Qed.

Lemma nonempty_length (l : list Q) : l <> [] -> 1 <= arrayLength l.
Proof. unfold arrayLength. destruct l; [congruence | simpl List.length; lia]. Qed.

(** X1. [percentile(p)] never reads outside the array: on an empty array it
    is [undefined]; on a non-empty one it is an element of the array for
    every [p], the first element when [p <= 0] and the last when
    [p >= 100]. *)
Theorem percentile_stays_in_bounds (t : LoadTester) (p : Q) :
  match responseTimes t with
  | [] => percentile t p = None
  | first :: _ =>
      (exists x, percentile t p = Some x /\ In x (responseTimes t)) /\
      ((p <= 0)%Q -> percentile t p = Some first) /\
      ((100 <= p)%Q -> percentile t p = Some (last (responseTimes t) first))
  end.
Proof.
  rewrite percentile_reads_index.
  destruct (responseTimes t) as [|first rest] eqn:E.
  { unfold percentileIndex, arrayLength. simpl List.length.
    replace (Z.max 0 (Z.min (Qceiling (p / 100 * inject_Z (Z.of_nat 0)) - 1)
                            (Z.of_nat 0 - 1))) with 0 by lia.
    reflexivity. }
  assert (Hne : first :: rest <> []) by discriminate.
  pose proof (nonempty_length _ Hne) as Hn.
  set (n := arrayLength (first :: rest)) in *.
  split; [|split].
  - apply at_index_some. pose proof (percentileIndex_range n p Hn).
    unfold n, arrayLength in *. lia.
  - intros Hp.
    assert (H : Qceiling (p / 100 * inject_Z n) <= 0).
    { change 0 with (Qceiling 0). apply Qceiling_resp_le.
      assert (0 <= inject_Z n)%Q by (change 0%Q with (inject_Z 0); rewrite <- Zle_Qle; lia).
      assert (p / 100 <= 0)%Q.
      { pose proof (div100_le p 0 Hp) as Hd.
        setoid_replace (0 / 100)%Q with 0%Q in Hd by reflexivity. exact Hd. }
      nra. }
    unfold percentileIndex.
    replace (Z.max 0 (Z.min (Qceiling (p / 100 * inject_Z n) - 1) (n - 1))) with 0 by lia.
    reflexivity.
  - intros Hp.
    assert (H : n <= Qceiling (p / 100 * inject_Z n)).
    { rewrite <- (Qceiling_Z n) at 1. apply Qceiling_resp_le.
      assert (0 <= inject_Z n)%Q by (change 0%Q with (inject_Z 0); rewrite <- Zle_Qle; lia).
      assert (1 <= p / 100)%Q.
      { pose proof (div100_le 100 p Hp) as Hd.
        setoid_replace (100 / 100)%Q with 1%Q in Hd by reflexivity. exact Hd. }
      nra. }
    unfold percentileIndex.
    replace (Z.max 0 (Z.min (Qceiling (p / 100 * inject_Z n) - 1) (n - 1))) with (n - 1) by lia.
    unfold n, arrayLength. now apply at_index_last.
Qed.

(** X2. Over an ascending-sorted array [percentile] is monotone: a higher
    [p] never gives a smaller value. *)
Theorem percentile_monotone (t : LoadTester) (p q x y : Q) :
  Sorted Qle (responseTimes t) ->
  (p <= q)%Q ->
  percentile t p = Some x ->
  percentile t q = Some y ->
  (x <= y)%Q.
Proof.
  intros Hsorted Hpq Hx Hy. rewrite percentile_reads_index in Hx, Hy.
  eapply sorted_at_index_le; [| |exact Hx|exact Hy].
  - apply Sorted_StronglySorted; [exact Qle_transitive | exact Hsorted].
  - apply percentileIndex_mono; [unfold arrayLength; lia | exact Hpq].
Qed.

Lemma percentile_monotone_witness :
  percentile (sampleTester [3; 8; 21]%Q) 10 = Some 3%Q /\
  percentile (sampleTester [3; 8; 21]%Q) 50 = Some 8%Q /\
  (3 <= 8)%Q.
Proof.
  split; [reflexivity|]. split; [reflexivity|].
  apply (percentile_monotone (sampleTester [3; 8; 21]%Q) 10 50 3 8).
  - repeat constructor; unfold Qle; simpl; lia.
  - unfold Qle; simpl; lia.
  - reflexivity.
  - reflexivity.
Defined.

(** ** The statistics of a phase *)

Lemma calculateStats_nonempty (u : LoadTester) :
  responseTimes u <> [] ->
  calculateStats u
  = {| avgResponseTime :=
         Num.div (Num.of_Q (sumOf (responseTimes u)))
                 (Num.of_Z (arrayLength (responseTimes u)));
       minResponseTime := at_index (responseTimes u) 0;
       maxResponseTime :=
         at_index (responseTimes u) (arrayLength (responseTimes u) - 1);
       p50ResponseTime := percentile u 50;
       p95ResponseTime := percentile u 95;
       p99ResponseTime := percentile u 99 |}.
Proof.
  intros Hne. unfold calculateStats.
  pose proof (nonempty_length _ Hne).
  destruct (Z.eqb_spec (arrayLength (responseTimes u)) 0); [lia | reflexivity].
Qed.

Lemma stats_of_sorted (u : LoadTester) :
  responseTimes u <> [] ->
  StronglySorted Qle (responseTimes u) ->
  exists mn a b c mx,
    minResponseTime (calculateStats u) = Some mn /\
    p50ResponseTime (calculateStats u) = Some a /\
    p95ResponseTime (calculateStats u) = Some b /\
    p99ResponseTime (calculateStats u) = Some c /\
    maxResponseTime (calculateStats u) = Some mx /\
    (mn <= a)%Q /\ (a <= b)%Q /\ (b <= c)%Q /\ (c <= mx)%Q /\
    Forall (fun v => In v (responseTimes u)) [mn; a; b; c; mx].
Proof.
  intros Hne Hs. rewrite (calculateStats_nonempty u Hne). cbn [minResponseTime
    p50ResponseTime p95ResponseTime p99ResponseTime maxResponseTime].
  rewrite !percentile_reads_index.
  pose proof (nonempty_length _ Hne) as Hn.
  set (l := responseTimes u) in *. set (n := arrayLength l) in *.
  assert (Hlen : n = Z.of_nat (List.length l)) by reflexivity.
  pose proof (percentileIndex_range n 50 Hn) as R50.
  pose proof (percentileIndex_range n 95 Hn) as R95.
  pose proof (percentileIndex_range n 99 Hn) as R99.
  assert (M1 : percentileIndex n 50 <= percentileIndex n 95).
  { apply percentileIndex_mono; [lia | unfold Qle; simpl; lia]. }
  assert (M2 : percentileIndex n 95 <= percentileIndex n 99).
  { apply percentileIndex_mono; [lia | unfold Qle; simpl; lia]. }
  destruct (at_index_some l 0) as (mn & Emn & Imn); [lia|].
  destruct (at_index_some l (percentileIndex n 50)) as (a & Ea & Ia); [lia|].
  destruct (at_index_some l (percentileIndex n 95)) as (b & Eb & Ib); [lia|].
  destruct (at_index_some l (percentileIndex n 99)) as (c & Ec & Ic); [lia|].
  destruct (at_index_some l (n - 1)) as (mx & Emx & Imx); [lia|].
  exists mn, a, b, c, mx.
  split; [exact Emn|]. split; [exact Ea|]. split; [exact Eb|].
  split; [exact Ec|]. split; [exact Emx|].
  split; [apply (sorted_at_index_le l 0 (percentileIndex n 50) mn a Hs); [lia|exact Emn|exact Ea]|].
  split; [apply (sorted_at_index_le l (percentileIndex n 50) (percentileIndex n 95) a b Hs M1 Ea Eb)|].
  split; [apply (sorted_at_index_le l (percentileIndex n 95) (percentileIndex n 99) b c Hs M2 Eb Ec)|].
  split; [apply (sorted_at_index_le l (percentileIndex n 99) (n - 1) c mx Hs); [lia|exact Ec|exact Emx]|].
  repeat constructor; assumption.
Qed.

(** What [runTest] knows of a phase with at least one request once it is
    past the join. *)
Lemma joined_phase_facts (t : LoadTester) (tps : Q) (name : string) (env : PhaseEnv)
    (pc : Pacer LoadTester) :
  runPhase t tps env = Some pc ->
  joined pc = true ->
  runTest t tps name env = Returns (summarize (state pc) tps name) /\
  requestCount (state pc) = List.length (requestPromises pc) /\
  (errorCount (state pc) <= requestCount (state pc))%nat /\
  Permutation (sortAscending (responseTimes (state pc)))
              (map recordedTime (settlements (requestPromises pc))) /\
  List.length (sortAscending (responseTimes (state pc)))
    = List.length (requestPromises pc).
Proof.
  intros Hrun Hj.
  destruct (runPhase_consistent _ _ _ _ Hrun) as (_ & _ & Hn & He & Hp).
  destruct (joined_all_settled pc Hj) as [_ Hall].
  pose proof (all_settled_length _ Hall) as Hlen.
  split; [now apply runTest_returns|].
  split; [now rewrite Hn|].
  split; [rewrite Hn, He; apply filter_length_le|].
  split; [eapply perm_trans; [apply sortAscending_perm | exact Hp]|].
  rewrite sortAscending_length, (Permutation_length Hp), length_map. exact Hlen.
Qed.

(** X4. In the result of a phase with at least one request the five order
    statistics are recorded response times of that phase and come in
    order: min <= p50 <= p95 <= p99 <= max. *)
Theorem runTest_statistics_ordered
    (t : LoadTester) (tps : Q) (name : string) (env : PhaseEnv) (pc : Pacer LoadTester) :
  runPhase t tps env = Some pc ->
  joined pc = true ->
  requestPromises pc <> [] ->
  exists t' r mn a b c mx,
    runTest t tps name env = Returns (t', r) /\
    minResponseTime (Phase.stats r) = Some mn /\
    p50ResponseTime (Phase.stats r) = Some a /\
    p95ResponseTime (Phase.stats r) = Some b /\
    p99ResponseTime (Phase.stats r) = Some c /\
    maxResponseTime (Phase.stats r) = Some mx /\
    (mn <= a)%Q /\ (a <= b)%Q /\ (b <= c)%Q /\ (c <= mx)%Q /\
    Forall (fun v => In v (map recordedTime (settlements (requestPromises pc))))
           [mn; a; b; c; mx].
Proof.
  intros Hrun Hj Hne.
  destruct (joined_phase_facts t tps name env pc Hrun Hj) as (Hret & _ & _ & Hperm & Hlen).
  set (u := {| config := config (state pc);
               results := results (state pc);
               isRunning := isRunning (state pc);
               requestCount := requestCount (state pc);
               errorCount := errorCount (state pc);
               responseTimes := sortAscending (responseTimes (state pc)) |}).
  assert (Hu : responseTimes u <> []).
  { simpl. intros E. rewrite E in Hlen. destruct (requestPromises pc); [congruence|discriminate]. }
  destruct (stats_of_sorted u Hu (sortAscending_sorted _))
    as (mn & a & b & c & mx & H1 & H2 & H3 & H4 & H5 & L1 & L2 & L3 & L4 & Hin).
  exists (fst (summarize (state pc) tps name)), (snd (summarize (state pc) tps name)),
         mn, a, b, c, mx.
  split; [rewrite <- surjective_pairing; exact Hret|].
  change (Phase.stats (snd (summarize (state pc) tps name))) with (calculateStats u).
  repeat (split; [assumption|]).
  eapply Forall_impl; [|exact Hin].
  intros v Hv. eapply Permutation_in; [exact Hperm | exact Hv].
Qed.

Lemma runTest_statistics_ordered_witness :
  exists t' r,
    runTest (newLoadTester defaultConfig) 5 "5TPS" mixedEnv = Returns (t', r) /\
    minResponseTime (Phase.stats r) = Some 0%Q /\
    p50ResponseTime (Phase.stats r) = Some 0%Q /\
    maxResponseTime (Phase.stats r) = Some 12%Q /\
    (0 <= 0)%Q /\ (0 <= 12)%Q.
Proof.
  destruct (runTest_statistics_ordered
              (newLoadTester defaultConfig) 5 "5TPS" mixedEnv
              (phaseOf (newLoadTester defaultConfig) 5 mixedEnv)
              eq_refl eq_refl ltac:(discriminate))
    as (t' & r & mn & a & b & c & mx & H1 & H2 & H3 & H4 & H5 & H6 & L1 & L2 & L3 & L4 & _).
  pose proof H1 as E. vm_compute in E. injection E as <- <-.
  injection H2 as <-. injection H3 as <-. injection H4 as <-.
  injection H5 as <-. injection H6 as <-.
  eexists. eexists. split; [exact H1|].
  split; [reflexivity|]. split; [reflexivity|]. split; [reflexivity|].
  split; [exact L1|]. eapply Qle_trans; [exact L2|]. eapply Qle_trans; [exact L3 | exact L4].
Defined.





(** X6. [runTest] leaves [this.responseTimes] in ascending order, holding
    the same times it had recorded in order of completion. *)
Theorem runTest_sorts_response_times
    (t : LoadTester) (tps : Q) (name : string) (env : PhaseEnv) (pc : Pacer LoadTester) :
  runPhase t tps env = Some pc ->
  joined pc = true ->
  exists t' r,
    runTest t tps name env = Returns (t', r) /\
    StronglySorted Qle (responseTimes t') /\
    Permutation (responseTimes t') (responseTimes (state pc)).
Proof.
  intros Hrun Hj.
  exists (fst (summarize (state pc) tps name)), (snd (summarize (state pc) tps name)).
  split; [rewrite <- surjective_pairing; now apply runTest_returns|].
  split; [apply sortAscending_sorted | apply sortAscending_perm].
Qed.

Lemma runTest_sorts_response_times_witness :
  responseTimes (state (phaseOf (newLoadTester defaultConfig) 5 mixedEnv))
    = [0; 0; 12]%Q /\
  exists t' r,
    runTest (newLoadTester defaultConfig) 5 "5TPS" mixedEnv = Returns (t', r) /\
    StronglySorted Qle (responseTimes t').
Proof.
  split; [reflexivity|].
  destruct (runTest_sorts_response_times
              (newLoadTester defaultConfig) 5 "5TPS" mixedEnv
              (phaseOf (newLoadTester defaultConfig) 5 mixedEnv) eq_refl eq_refl)
    as (t' & r & H1 & H2 & _).
  exists t', r. split; assumption.
Defined.



(** ** More on the pacing loop *)

Lemma replaceAt_length {A : Type} (k : nat) (v : A) (arr : list A) :
  List.length (replaceAt k v arr) = List.length arr.
Proof.
  revert k. induction arr as [|x arr IH]; intros k; [destruct k; reflexivity|].
  destruct k; simpl; [reflexivity | now rewrite IH].
Qed.

Lemma replaceAt_other {A : Type} (k i : nat) (v : A) (arr : list A) :
  i <> k -> nth_error (replaceAt k v arr) i = nth_error arr i.
Proof.
  revert k i. induction arr as [|x arr IH]; intros k i Hne; [destruct k; reflexivity|].
  destruct k, i; simpl; try reflexivity; try congruence.
  apply IH. congruence.
Qed.

Lemma replaceAt_same {A : Type} (k : nat) (v : A) (arr : list A) :
  (k < List.length arr)%nat -> nth_error (replaceAt k v arr) k = Some v.
Proof.
  revert k. induction arr as [|x arr IH]; intros k Hk; [simpl in Hk; lia|].
  destruct k; simpl; [reflexivity|]. apply IH. simpl in Hk. lia.
Qed.

Ltac unchanged_step :=
  left; split; [reflexivity|]; split; [reflexivity|];
  split; [intros Hpacing; (reflexivity || exact Hpacing || assumption || discriminate Hpacing)|];
  intros ? ? _ Hpending; exact Hpending.

Section PacingShape.

Variable State : Type.
Variable keepRunning : State -> bool.
Variable onSettled : Settlement -> State -> State.
Variable onStop : State -> State.
Variable cfg : Config.
Variable weightedScenarios : list Scenario.
Variable endTime : number.
Variable interval : number.

Local Abbreviation step1 :=
  (step State keepRunning onSettled onStop cfg weightedScenarios endTime interval).
Local Abbreviation run1 :=
  (runEvents State keepRunning onSettled onStop cfg weightedScenarios endTime interval).

(** An event either dispatches one request, under the three conditions of
    the loop, or leaves the schedule and the number of promises alone. *)
Lemma step_dispatch_or_not (pc pc' : Pacer State) (e : Event) :
  step1 pc e = Some pc' ->
  (nextRequestTime pc' = nextRequestTime pc /\
   List.length (requestPromises pc') = List.length (requestPromises pc) /\
   (pacing pc = false -> pacing pc' = false) /\
   forall k startTime,
     (match e with Transport k' _ => k' <> k | _ => True end) ->
     nth_error (requestPromises pc) k = Some (Pending startTime) ->
     nth_error (requestPromises pc') k = Some (Pending startTime)) \/
  (exists condNow bodyNow random exec p,
     e = LoopPass condNow bodyNow random exec /\
     pacing pc = true /\
     Num.ltb (Num.of_Z condNow) endTime = true /\
     keepRunning (state pc) = true /\
     Num.geb (Num.of_Z bodyNow) (nextRequestTime pc) = true /\
     requestPromises pc' = requestPromises pc ++ [p] /\
     nextRequestTime pc' = Num.add (nextRequestTime pc) interval /\
     pacing pc' = true).
Proof.
  unfold step. destruct (joined pc).
  { intros [= <-]. unchanged_step. }
  destruct e as [condNow bodyNow random exec|k ev|].
  - destruct (pacing pc) eqn:Hp; [|intros [= <-]; unchanged_step].
    unfold loopPass.
    destruct (Num.ltb (Num.of_Z condNow) endTime) eqn:Hc;
      [|intros [= <-]; unchanged_step].
    destruct (keepRunning (state pc)) eqn:Hk;
      [|intros [= <-]; unchanged_step].
    cbn [andb].
    destruct (Num.geb (Num.of_Z bodyNow) (nextRequestTime pc)) eqn:Hg;
      [|intros [= <-]; unchanged_step].
    unfold dispatch.
    destruct (selectScenario weightedScenarios random) as [scenario|]; [|discriminate].
    intros [= <-]. right.
    exists condNow, bodyNow, random, exec,
           (makeRequest cfg (endpoint scenario) (method scenario) (data scenario) exec).
    repeat split; auto.
  - intros [= <-]. unfold settle.
    destruct (nth_error (requestPromises pc) k) as [[startTime|s]|] eqn:Hk;
      try unchanged_step.
    left. cbn [deliver nextRequestTime requestPromises pacing].
    split; [reflexivity|]. split; [apply replaceAt_length|]. split; [auto|].
    intros k0 st Hne Hnth. rewrite replaceAt_other by congruence. exact Hnth.
  - intros [= <-]. unchanged_step.
Qed.

Lemma runEvents_app (evs1 evs2 : list Event) (pc : Pacer State) :
  run1 pc (evs1 ++ evs2)
  = match run1 pc evs1 with
    | Some pc1 => run1 pc1 evs2
    | None => None
    end.
Proof.
  revert pc. induction evs1 as [|e evs1 IH]; intros pc; [reflexivity|].
  simpl. destruct (step1 pc e); [apply IH | reflexivity].
Qed.

(** Like [run_preserves], for an invariant that depends on what the events
    of the trace are. *)
Lemma run_preserves_events (P : Event -> Prop) (I : Pacer State -> Prop) :
  (forall pc e pc', P e -> I pc -> step1 pc e = Some pc' -> I pc') ->
  forall evs pc pc', Forall P evs -> I pc -> run1 pc evs = Some pc' -> I pc'.
Proof.
  intros Hstep. induction evs as [|e evs IH]; intros pc pc' Hall HI Hrun.
  - injection Hrun as <-. exact HI.
  - inversion Hall as [|? ? He Hrest]; subst. simpl in Hrun.
    destruct (step1 pc e) as [pc1|] eqn:E; [|discriminate].
    eapply IH; [exact Hrest | | exact Hrun]. eapply Hstep; eassumption.
Qed.

(** Each pass of the loop dispatches at most one request, and nothing else
    adds a promise. *)
Lemma run_dispatch_bound (evs : list Event) :
  forall pc pc',
    run1 pc evs = Some pc' ->
    (List.length (requestPromises pc') <= List.length (requestPromises pc) + loopPasses evs)%nat.
Proof.
  induction evs as [|e evs IH]; intros pc pc' Hrun.
  - injection Hrun as <-. unfold loopPasses. simpl. lia.
  - simpl in Hrun. destruct (step1 pc e) as [pc1|] eqn:E; [|discriminate].
    specialize (IH pc1 pc' Hrun).
    assert (H1 : (List.length (requestPromises pc1)
                  <= List.length (requestPromises pc)
                     + (if isLoopPass e then 1 else 0))%nat).
    { destruct (step_dispatch_or_not _ _ _ E)
        as [(_ & Hlen & _)|(c & b & r & x & p & -> & _ & _ & _ & _ & Hps & _)].
      - lia.
      - rewrite Hps, length_app. simpl. lia. }
    unfold loopPasses in *. simpl. destruct (isLoopPass e); simpl; lia.
Qed.


End PacingShape.

(** X8. Neither [runTest] nor [runWarmup] fires more than one request per
    pass of its loop: the number of dispatched requests never exceeds the
    number of passes. *)
Theorem at_most_one_dispatch_per_pass (t : LoadTester) (tps : Q) (env : PhaseEnv) :
  (forall pc, runPhase t tps env = Some pc ->
     (List.length (requestPromises pc) <= loopPasses (events env))%nat) /\
  (forall pc, warmupPhase t env = Some pc ->
     (List.length (requestPromises pc) <= loopPasses (events env))%nat).
Proof.
  split; intros pc Hrun.
  - unfold runPhase in Hrun. apply run_dispatch_bound in Hrun. exact Hrun.
  - unfold warmupPhase in Hrun. apply run_dispatch_bound in Hrun. exact Hrun.
Qed.




Lemma stopped_stays_stopped (cfg : Config) (table : list Scenario)
    (endTime interval : number) (n : nat) (evs : list Event) :
  forall pc pc',
    isRunning (state pc) = false ->
    List.length (requestPromises pc) = n ->
    runEvents LoadTester isRunning recordSettlement stop cfg table endTime interval pc evs
      = Some pc' ->
    isRunning (state pc') = false /\ List.length (requestPromises pc') = n.
Proof.
  intros pc pc' Hstopped Hlen Hrun.
  apply (run_preserves LoadTester isRunning recordSettlement stop cfg table endTime interval
           (fun pc => isRunning (state pc) = false /\
                      List.length (requestPromises pc) = n))
    with (evs := evs) (pc := pc); auto.
  intros pc0 e pc1 [Hs Hn] Hstep. split.
  - destruct (step_cases _ _ _ _ _ _ _ _ _ _ _ Hstep)
      as [[E _]|[(s & l1 & l2 & E & _)|[E _]]]; rewrite E.
    + exact Hs.
    + destruct (recordSettlement_counts s (state pc0)) as (_ & _ & Hr & _). congruence.
    + reflexivity.
  - destruct (step_dispatch_or_not _ _ _ _ _ _ _ _ _ _ _ Hstep)
      as [(_ & Hlen1 & _)|(c & b & r & x & p & _ & _ & _ & Hk & _)].
    + congruence.
    + congruence.
Qed.

(** X10. After [stop()] has been called during [runTest], no further request
    is dispatched, whatever the clock says: the promises collected at the
    end of the phase are as many as at the moment of the call. *)
Theorem stop_halts_dispatch
    (t : LoadTester) (tps : Q) (env : PhaseEnv) (before after : list Event)
    (pc1 pc2 : Pacer LoadTester) :
  runPhase t tps (withEvents env before) = Some pc1 ->
  runPhase t tps (withEvents env (before ++ StopCall :: after)) = Some pc2 ->
  List.length (requestPromises pc2) = List.length (requestPromises pc1).
Proof.
  unfold runPhase. cbn [withEvents events startNow randomId].
  intros H1 H2. rewrite runEvents_app, H1 in H2. simpl in H2.
  unfold step in H2. destruct (joined pc1) eqn:Hj.
  - rewrite runEvents_joined in H2 by exact Hj. now injection H2 as <-.
  - eapply stopped_stays_stopped in H2; [apply H2 | reflexivity | reflexivity].
Qed.

Lemma stop_halts_dispatch_witness :
  List.length (requestPromises (phaseOf (newLoadTester defaultConfig) 5 stoppedEnv)) = 1%nat /\
  joined (phaseOf (newLoadTester defaultConfig) 5 stoppedEnv) = true.
Proof.
  split; [|reflexivity].
  apply (stop_halts_dispatch
           (newLoadTester defaultConfig) 5 stoppedEnv
           [LoopPass 0 0 (1 # 3) (Started 0)]
           [LoopPass 200 200 (1 # 3) (Started 200);
            Transport 0 (ResponseEnd 200 "ok" 12);
            LoopPass 400 400 (1 # 3) (Started 400)]
           (phaseOf (newLoadTester defaultConfig) 5
              (withEvents stoppedEnv [LoopPass 0 0 (1 # 3) (Started 0)]))
           (phaseOf (newLoadTester defaultConfig) 5 stoppedEnv)).
  - reflexivity.
  - reflexivity.
Defined.

(** ** When the join completes *)

Lemma all_indices_settled (ps : list Promise) :
  (forall i, (i < List.length ps)%nat -> exists s, nth_error ps i = Some (Settled s)) ->
  forallb isSettled ps = true.
Proof.
  intros H. apply forallb_forall. intros p Hin.
  apply In_nth_error in Hin. destruct Hin as [i Hi].
  assert (Hlt : (i < List.length ps)%nat) by (apply nth_error_Some; congruence).
  destruct (H i Hlt) as [s Hs]. rewrite Hs in Hi. injection Hi as <-. reflexivity.
Qed.

Lemma pending_not_all_settled (ps : list Promise) (k : nat) (startTime : Q) :
  nth_error ps k = Some (Pending startTime) -> forallb isSettled ps = false.
Proof.
  intros Hk. destruct (forallb isSettled ps) eqn:E; [|reflexivity].
  rewrite forallb_forall in E. apply nth_error_In in Hk.
  specialize (E _ Hk). discriminate.
Qed.

Section PacingJoin.

Variable State : Type.
Variable keepRunning : State -> bool.
Variable onSettled : Settlement -> State -> State.
Variable onStop : State -> State.
Variable cfg : Config.
Variable weightedScenarios : list Scenario.
Variable endTime : number.
Variable interval : number.

Local Abbreviation step2 :=
  (step State keepRunning onSettled onStop cfg weightedScenarios endTime interval).
Local Abbreviation run2 :=
  (runEvents State keepRunning onSettled onStop cfg weightedScenarios endTime interval).

(** Once the loop is over, a transport event for each request from [a] on
    is all the join needs. *)
Lemma answers_complete_join (answer : nat -> TransportEvent) (m : nat) :
  forall (a : nat) (pc : Pacer State),
    pacing pc = false ->
    (a + m = List.length (requestPromises pc))%nat ->
    (forall i, (i < a)%nat -> exists s, nth_error (requestPromises pc) i = Some (Settled s)) ->
    exists pc',
      run2 pc (map (fun k => Transport k (answer k)) (seq a m)) = Some pc' /\
      joined pc' = true /\
      List.length (requestPromises pc') = List.length (requestPromises pc).
Proof.
  induction m as [|m IH]; intros a pc Hp Hlen Hbelow.
  - exists pc. split; [reflexivity|]. split; [|reflexivity].
    unfold joined. rewrite Hp. cbn [negb andb].
    apply all_indices_settled. intros i Hi. apply Hbelow. lia.
  - cbn [seq map runEvents]. unfold step. destruct (joined pc) eqn:Hj.
    + apply IH; [exact Hp | lia |].
      intros i Hi. destruct (joined_all_settled pc Hj) as [_ Hall].
      rewrite forallb_forall in Hall.
      destruct (nth_error (requestPromises pc) i) as [p|] eqn:E.
      * specialize (Hall p (nth_error_In _ _ E)). destruct p; [discriminate|].
        eexists. reflexivity.
      * apply nth_error_None in E. lia.
    + assert (Ha : (a < List.length (requestPromises pc))%nat) by lia.
      unfold settle.
      destruct (nth_error (requestPromises pc) a) as [[startTime|s]|] eqn:E.
      * cbn [deliver].
        destruct (IH (S a)
                    {| state := onSettled (onEvent cfg startTime (answer a)) (state pc);
                       requestPromises :=
                         replaceAt a (Settled (onEvent cfg startTime (answer a)))
                                   (requestPromises pc);
                       nextRequestTime := nextRequestTime pc;
                       pacing := pacing pc |})
          as (pc' & Hrun & Hj' & Hlen').
        -- exact Hp.
        -- cbn [requestPromises]. rewrite replaceAt_length. lia.
        -- cbn [requestPromises]. intros i Hi.
           destruct (Nat.eq_dec i a) as [->|Hne].
           ++ eexists. apply replaceAt_same. exact Ha.
           ++ rewrite replaceAt_other by exact Hne. apply Hbelow. lia.
        -- exists pc'. split; [exact Hrun|]. split; [exact Hj'|].
           rewrite Hlen'. cbn [requestPromises]. apply replaceAt_length.
      * apply IH; [exact Hp | lia |].
        intros i Hi. destruct (Nat.eq_dec i a) as [->|Hne].
        -- eexists. exact E.
        -- apply Hbelow. lia.
      * apply nth_error_None in E. lia.
Qed.

(** A pending request stays pending as long as the transport says nothing
    about it. *)
Lemma pending_while_silent (k : nat) (startTime : Q) (evs : list Event) :
  silentFor k evs ->
  forall pc pc',
    nth_error (requestPromises pc) k = Some (Pending startTime) ->
    run2 pc evs = Some pc' ->
    nth_error (requestPromises pc') k = Some (Pending startTime).
Proof.
  intros Hsilent pc pc' Hk Hrun.
  apply (run_preserves_events State keepRunning onSettled onStop cfg weightedScenarios
           endTime interval
           (fun e => match e with Transport k' _ => k' <> k | _ => True end)
           (fun pc => nth_error (requestPromises pc) k = Some (Pending startTime)))
    with (evs := evs) (pc := pc); auto.
  intros pc0 e pc1 He Hk0 Hstep.
  destruct (step_dispatch_or_not _ _ _ _ _ _ _ _ _ _ _ Hstep)
    as [(_ & _ & _ & Hkeep)|(c & b & r & x & p & _ & _ & _ & _ & _ & Hps & _)].
  - apply Hkeep; assumption.
  - rewrite Hps. rewrite nth_error_app1; [exact Hk0|].
    apply nth_error_Some. congruence.
Qed.

End PacingJoin.

(** X11. [runTest] returns as soon as the loop is over and every dispatched
    request has had one transport event, be it a response, an error or a
    timeout; the result counts all of them. *)
Theorem runTest_returns_once_answered
    (t : LoadTester) (tps : Q) (name : string) (env : PhaseEnv) (evs : list Event)
    (answer : nat -> TransportEvent) (pc : Pacer LoadTester) :
  runPhase t tps (withEvents env evs) = Some pc ->
  pacing pc = false ->
  exists t' r,
    runTest t tps name
      (withEvents env (evs ++ answerAll answer (List.length (requestPromises pc))))
      = Returns (t', r) /\
    Phase.totalRequests r = List.length (requestPromises pc).
Proof.
  intros Hrun Hp.
  destruct (answers_complete_join LoadTester isRunning recordSettlement stop
              (config (resetCounters t))
              (buildWeighted (testScenarios (randomId env)))
              (phaseEnd (startNow env) (duration (config (resetCounters t))))
              (intervalFor tps) answer
              (List.length (requestPromises pc)) 0 pc Hp eq_refl)
    as (pc' & Hrun' & Hj & Hlen); [intros i Hi; lia|].
  assert (Hphase : runPhase t tps
                     (withEvents env (evs ++ answerAll answer (List.length (requestPromises pc))))
                   = Some pc').
  { unfold runPhase in *. cbn [withEvents events startNow randomId] in *.
    rewrite runEvents_app, Hrun. exact Hrun'. }
  destruct (joined_phase_facts t tps name _ pc' Hphase Hj) as (Hret & Hcount & _).
  exists (fst (summarize (state pc') tps name)), (snd (summarize (state pc') tps name)).
  split; [rewrite <- surjective_pairing; exact Hret|].
  change (Phase.totalRequests (snd (summarize (state pc') tps name)))
    with (requestCount (state pc')).
  congruence.
Qed.

Lemma runTest_returns_once_answered_witness :
  exists t' r,
    runTest (newLoadTester defaultConfig) 5 "5TPS"
      (withEvents silentEnv (events silentEnv ++ [Transport 0 RequestTimeout]))
      = Returns (t', r) /\
    Phase.totalRequests r = 1%nat.
Proof.
  apply (runTest_returns_once_answered
           (newLoadTester defaultConfig) 5 "5TPS" silentEnv (events silentEnv)
           (fun _ => RequestTimeout)
           (phaseOf (newLoadTester defaultConfig) 5 silentEnv)).
  - reflexivity.
  - reflexivity.
Defined.

(** X12. [runTest] sets no deadline of its own: while the transport reports
    nothing for a request that is pending, [runTest] does not return,
    however long the trace goes on. *)
Theorem runTest_waits_for_silent_request
    (t : LoadTester) (tps : Q) (name : string) (env : PhaseEnv)
    (before after : list Event) (pc1 : Pacer LoadTester) (k : nat) (startTime : Q) :
  runPhase t tps (withEvents env before) = Some pc1 ->
  nth_error (requestPromises pc1) k = Some (Pending startTime) ->
  silentFor k after ->
  forall t' r,
    runTest t tps name (withEvents env (before ++ after)) <> Returns (t', r).
Proof.
  intros Hrun Hk Hsilent t' r. unfold runTest.
  destruct (runPhase t tps (withEvents env (before ++ after))) as [pc2|] eqn:Hrun2;
    [|discriminate].
  unfold runPhase in *. cbn [withEvents events startNow randomId] in *.
  rewrite runEvents_app, Hrun in Hrun2.
  pose proof (pending_while_silent _ _ _ _ _ _ _ _ k startTime after Hsilent
                pc1 pc2 Hk Hrun2) as Hk2.
  unfold joined. rewrite (pending_not_all_settled _ _ _ Hk2), andb_false_r.
  discriminate.
Qed.

Lemma runTest_waits_for_silent_request_witness :
  runTest (newLoadTester defaultConfig) 5 "5TPS" silentEnv = Suspended.
Proof.
  destruct (runTest (newLoadTester defaultConfig) 5 "5TPS" silentEnv)
    as [[t' r]| |] eqn:E.
  - exfalso.
    apply (runTest_waits_for_silent_request
             (newLoadTester defaultConfig) 5 "5TPS" silentEnv
             [LoopPass 0 0 (1 # 3) (Started 0)]
             [LoopPass 60000 60000 0 (Started 0)]
             (phaseOf (newLoadTester defaultConfig) 5
                (withEvents silentEnv [LoopPass 0 0 (1 # 3) (Started 0)]))
             0%nat 0%Q eq_refl eq_refl ltac:(repeat constructor) t' r).
    exact E.
  - reflexivity.
  - vm_compute in E. discriminate E.
Defined.

(** ** The warm-up *)

Lemma countSettlement_counts (s : Settlement) (w : Warmup) :
  tester (countSettlement s w) = tester w /\
  warmupRequestCount (countSettlement s w) = S (warmupRequestCount w) /\
  warmupErrorCount (countSettlement s w)
    = (if countedAsError s then S (warmupErrorCount w) else warmupErrorCount w).
Proof.
  destruct s as [r|e]; simpl; repeat split. destruct (success r); reflexivity.
Qed.

Lemma warmupPhase_counts (t : LoadTester) (env : PhaseEnv) (pc : Pacer Warmup) :
  warmupPhase t env = Some pc ->
  warmupRequestCount (state pc) = List.length (settlements (requestPromises pc)) /\
  warmupErrorCount (state pc)
    = List.length (filter countedAsError (settlements (requestPromises pc))).
Proof.
  unfold warmupPhase.
  apply (run_preserves Warmup (fun _ => true) countSettlement stopDuringWarmup
           (config t) (buildWeighted (warmupScenarios (randomId env)))
           (phaseEnd (startNow env) (warmupDuration (config t)))
           (intervalFor (warmupTPS (config t)))
           (fun pc =>
              warmupRequestCount (state pc)
                = List.length (settlements (requestPromises pc)) /\
              warmupErrorCount (state pc)
                = List.length (filter countedAsError (settlements (requestPromises pc))))).
  - intros pc0 e pc1 [Hn He] Hstep.
    destruct (step_cases _ _ _ _ _ _ _ _ _ _ _ Hstep)
      as [[E1 E2]|[(s & l1 & l2 & E1 & E2 & E3)|[E1 E2]]].
    + rewrite E1, E2. split; assumption.
    + destruct (countSettlement_counts s (state pc0)) as (_ & Rn & Re).
      rewrite E1, E3, Rn, Re. rewrite E2 in Hn, He. split.
      * rewrite Hn, !length_app. simpl. lia.
      * rewrite He, !filter_app, !length_app. simpl.
        destruct (countedAsError s); simpl; lia.
    + rewrite E1, E2. split; assumption.
  - split; reflexivity.
Qed.

(** X13. When [runWarmup] gets past its join it has counted every request it
    dispatched, and computed its error rate from the number of those that
    failed; the counters, response times and results of the tester itself
    are as they were before the warm-up. *)
Theorem warmup_counts_without_touching_tester
    (t : LoadTester) (env : PhaseEnv) (pc : Pacer Warmup) :
  warmupPhase t env = Some pc ->
  joined pc = true ->
  exists t1 report,
    runWarmup t env = Returns (t1, report) /\
    warmupTotal report = List.length (requestPromises pc) /\
    warmupErrorRate report
      = Num.mul
          (Num.div
             (Num.of_nat (List.length (filter countedAsError
                                         (settlements (requestPromises pc)))))
             (Num.of_nat (List.length (requestPromises pc))))
          (Num.of_Z 100) /\
    requestCount t1 = requestCount t /\
    errorCount t1 = errorCount t /\
    responseTimes t1 = responseTimes t /\
    results t1 = results t.
Proof.
  intros Hrun Hj.
  destruct (warmupPhase_counts t env pc Hrun) as [Hn He].
  destruct (joined_all_settled pc Hj) as [_ Hall].
  pose proof (all_settled_length _ Hall) as Hlen.
  assert (Hret : runWarmup t env
                 = Returns (tester (state pc),
                            {| warmupTotal := warmupRequestCount (state pc);
                               actualWarmupTPS :=
                                 Num.div (Num.of_nat (warmupRequestCount (state pc)))
                                         (Num.of_Q (warmupDuration
                                                      (config (tester (state pc)))));
                               warmupErrorRate :=
                                 Num.mul
                                   (Num.div (Num.of_nat (warmupErrorCount (state pc)))
                                            (Num.of_nat (warmupRequestCount (state pc))))
                                   (Num.of_Z 100) |})).
  { unfold runWarmup. rewrite Hrun, Hj. reflexivity. }
  destruct (runWarmup_keeps_tester _ _ _ _ Hret) as (_ & Hres & Hrc & Hec & Hrt).
  eexists. eexists. split; [exact Hret|].
  cbn [warmupTotal warmupErrorRate].
  rewrite He, Hn, Hlen. repeat split; assumption.
Qed.

Lemma warmup_counts_without_touching_tester_witness :
  exists t1 report,
    runWarmup (newLoadTester defaultConfig) oneRequestEnv = Returns (t1, report) /\
    warmupTotal report = 1%nat /\
    warmupErrorRate report = Fin 0 /\
    responseTimes t1 = [].
Proof.
  destruct (warmup_counts_without_touching_tester
              (newLoadTester defaultConfig) oneRequestEnv
              (warmupPhaseOf (newLoadTester defaultConfig) oneRequestEnv)
              eq_refl eq_refl)
    as (t1 & report & H1 & H2 & H3 & _ & _ & H4 & _).
  exists t1, report. repeat split; assumption.
Defined.

(** *** [stop()] during the warm-up *)

Lemma stop_normalised_run (cfg : Config) (table : list Scenario)
    (endTime interval : number) (evs : list Event) :
  forall pc : Pacer Warmup,
    stopDuringWarmup (state pc) = state pc ->
    runEvents Warmup (fun _ => true) countSettlement stopDuringWarmup
      cfg table endTime interval pc (withoutStops evs)
    = runEvents Warmup (fun _ => true) countSettlement stopDuringWarmup
        cfg table endTime interval pc evs.
Proof.
  induction evs as [|e evs IH]; intros pc Hnorm; [reflexivity|].
  destruct e as [c b r x|k ev|].
  - unfold withoutStops. cbn [filter isStopCall negb]. fold (withoutStops evs).
    cbn [runEvents].
    destruct (step Warmup (fun _ => true) countSettlement stopDuringWarmup
                cfg table endTime interval pc (LoopPass c b r x)) as [pc1|] eqn:E;
      [|reflexivity].
    apply IH.
    destruct (step_cases _ _ _ _ _ _ _ _ _ _ _ E)
      as [[E1 _]|[(s & l1 & l2 & E1 & _)|[E1 _]]]; rewrite E1.
    + exact Hnorm.
    + rewrite <- Hnorm at 2. reflexivity.
    + reflexivity.
  - unfold withoutStops. cbn [filter isStopCall negb]. fold (withoutStops evs).
    cbn [runEvents].
    destruct (step Warmup (fun _ => true) countSettlement stopDuringWarmup
                cfg table endTime interval pc (Transport k ev)) as [pc1|] eqn:E;
      [|reflexivity].
    apply IH.
    destruct (step_cases _ _ _ _ _ _ _ _ _ _ _ E)
      as [[E1 _]|[(s & l1 & l2 & E1 & _)|[E1 _]]]; rewrite E1.
    + exact Hnorm.
    + rewrite <- Hnorm at 2. reflexivity.
    + reflexivity.
  - unfold withoutStops. cbn [filter isStopCall negb]. fold (withoutStops evs).
    cbn [runEvents]. unfold step.
    assert (Hsame : {| state := stopDuringWarmup (state pc);
                       requestPromises := requestPromises pc;
                       nextRequestTime := nextRequestTime pc;
                       pacing := pacing pc |} = pc).
    { rewrite Hnorm. destruct pc; reflexivity. }
    rewrite Hsame. destruct (joined pc); apply IH; exact Hnorm.
Qed.

Lemma warmupPhase_without_stops (t : LoadTester) (env : PhaseEnv) :
  option_map (mapPacer stopDuringWarmup)
    (warmupPhase t (withEvents env (withoutStops (events env))))
  = option_map (mapPacer stopDuringWarmup) (warmupPhase t env).
Proof.
  unfold warmupPhase. cbn [withEvents events startNow randomId].
  rewrite <- !(runEvents_map Warmup Warmup stopDuringWarmup
                 (fun _ => true) (fun _ => true) countSettlement countSettlement
                 stopDuringWarmup stopDuringWarmup)
    by (intros; reflexivity).
  apply stop_normalised_run. reflexivity.
Qed.

Lemma same_but_isRunning (a b : LoadTester) :
  stop a = stop b ->
  config a = config b /\ results a = results b /\
  requestCount a = requestCount b /\ errorCount a = errorCount b /\
  responseTimes a = responseTimes b.
Proof.
  intros H.
  pose proof (f_equal config H). pose proof (f_equal results H).
  pose proof (f_equal requestCount H). pose proof (f_equal errorCount H).
  pose proof (f_equal responseTimes H). auto.
Qed.

Lemma runTest_after_stop (a b : LoadTester) (tps : Q) (name : string) (env : PhaseEnv) :
  stop a = stop b -> runTest a tps name env = runTest b tps name env.
Proof.
  intros H. destruct (same_but_isRunning a b H) as (Hc & Hr & _).
  unfold runTest, runPhase, resetCounters. now rewrite Hc, Hr.
Qed.

Lemma runWarmup_without_stops (t : LoadTester) (env : PhaseEnv) :
  match runWarmup t (withEvents env (withoutStops (events env))), runWarmup t env with
  | Returns (a, ra), Returns (b, rb) => stop a = stop b /\ ra = rb
  | Suspended, Suspended => True
  | Throws, Throws => True
  | _, _ => False
  end.
Proof.
  pose proof (warmupPhase_without_stops t env) as H. unfold runWarmup.
  destruct (warmupPhase t (withEvents env (withoutStops (events env)))) as [pc1|];
    destruct (warmupPhase t env) as [pc2|]; try discriminate H; [|exact I].
  cbn [option_map] in H.
  assert (H' : mapPacer stopDuringWarmup pc1 = mapPacer stopDuringWarmup pc2)
    by congruence.
  assert (Hj : joined pc1 = joined pc2).
  { change (joined (mapPacer stopDuringWarmup pc1) = joined (mapPacer stopDuringWarmup pc2)).
    now rewrite H'. }
  assert (Hs : stopDuringWarmup (state pc1) = stopDuringWarmup (state pc2)).
  { change (state (mapPacer stopDuringWarmup pc1) = state (mapPacer stopDuringWarmup pc2)).
    now rewrite H'. }
  rewrite Hj. destruct (joined pc2); [|exact I].
  pose proof (f_equal tester Hs) as Ht. cbn [tester stopDuringWarmup] in Ht.
  pose proof (f_equal warmupRequestCount Hs) as Hn. cbn in Hn.
  pose proof (f_equal warmupErrorCount Hs) as He. cbn in He.
  destruct (same_but_isRunning _ _ Ht) as (Hc & _).
  cbv zeta. split; [exact Ht|]. now rewrite Hn, He, Hc.
Qed.

(** X14. Calling [stop()] during the warm-up changes nothing: [runWarmup]
    does not look at [isRunning] and [runTest] sets it again, so
    [runFullBenchmark] ends the same way, with the same results, as if the
    calls had not been made. *)
Theorem stop_during_warmup_is_ignored (t : LoadTester) (url : string) (env : BenchmarkEnv) :
  runFullBenchmark t url (withoutWarmupStops env) = runFullBenchmark t url env.
Proof.
  unfold runFullBenchmark, withoutWarmupStops. cbn [warmupEnv sweepEnvs].
  pose proof (runWarmup_without_stops (setBaseUrl t url) (warmupEnv env)) as H.
  destruct (runWarmup (setBaseUrl t url)
              (withEvents (warmupEnv env) (withoutStops (events (warmupEnv env)))))
    as [[a ra]| |];
    destruct (runWarmup (setBaseUrl t url) (warmupEnv env)) as [[b rb]| |];
    try contradiction; try reflexivity.
  destruct H as [Hab _].
  assert (Hsweep : sweep a tpsLevels (sweepEnvs env) = sweep b tpsLevels (sweepEnvs env)).
  { unfold tpsLevels. destruct (sweepEnvs env) as [|e envs]; [reflexivity|].
    cbn [sweep]. now rewrite (runTest_after_stop a b _ _ _ Hab). }
  now rewrite Hsweep.
Qed.

(** ** Nothing throws *)

Lemma runWarmup_does_not_throw (t : LoadTester) (env : PhaseEnv) :
  drawsInRange (events env) -> runWarmup t env <> Throws.
Proof.
  intros Hdraws. unfold runWarmup.
  destruct (warmupPhase t env) as [pc|] eqn:Hrun.
  - destruct (joined pc); discriminate.
  - exfalso. unfold warmupPhase in Hrun. revert Hrun.
    apply runEvents_defined; [discriminate | exact Hdraws].
Qed.

Lemma sweep_does_not_throw (levels : list Z) :
  forall (envs : list PhaseEnv) (t : LoadTester),
    Forall (fun env => drawsInRange (events env)) envs ->
    sweep t levels envs <> Throws.
Proof.
  induction levels as [|tps levels IH]; intros envs t Hall; [discriminate|].
  destruct envs as [|env envs]; [discriminate|].
  inversion Hall as [|? ? Henv Hrest]; subst. cbn [sweep].
  destruct (runTest t (inject_Z tps) (tpsLabel tps) env) as [[t1 r]| |] eqn:E.
  - apply IH. exact Hrest.
  - discriminate.
  - exfalso. revert E. apply runTest_does_not_throw. exact Henv.
Qed.

(** X15. With every value of [Math.random()] in the unit interval,
    [runFullBenchmark] never ends in an exception: a failing request, of
    whatever kind, is counted and the benchmark goes on. *)
Theorem benchmark_never_throws (t : LoadTester) (url : string) (env : BenchmarkEnv) :
  drawsInRange (events (warmupEnv env)) ->
  Forall (fun e => drawsInRange (events e)) (sweepEnvs env) ->
  runFullBenchmark t url env <> Throws.
Proof.
  intros Hw Hs. unfold runFullBenchmark.
  destruct (runWarmup (setBaseUrl t url) (warmupEnv env)) as [[t1 report]| |] eqn:E.
  - destruct (sweep t1 tpsLevels (sweepEnvs env)) eqn:E2; try discriminate.
    exfalso. revert E2. apply sweep_does_not_throw. exact Hs.
  - discriminate.
  - exfalso. revert E. apply runWarmup_does_not_throw. exact Hw.
Qed.

Ltac draws_in_range :=
  unfold drawsInRange; repeat constructor; unfold Qle, Qlt; simpl; lia.

Lemma benchmark_never_throws_witness :
  runFullBenchmark (newLoadTester defaultConfig) "http://localhost:3000" sampleBenchmarkEnv
  <> Throws.
Proof.
  apply (benchmark_never_throws (newLoadTester defaultConfig) "http://localhost:3000"
           sampleBenchmarkEnv).
  - draws_in_range.
  - repeat (apply Forall_cons; [draws_in_range|]). apply Forall_nil.
Defined.

(** ** The comparison report *)

Lemma add_NaN_r (a : number) : Num.add a NaN = NaN.
Proof. destruct a; reflexivity. Qed.

Lemma sum_from_NaN (field : Phase.Result -> number) (rs : list Phase.Result) :
  fold_left (fun sum r => Num.add sum (field r)) rs NaN = NaN.
Proof. induction rs as [|r rs IH]; [reflexivity | exact IH]. Qed.

Lemma sum_with_NaN (field : Phase.Result -> number) (rs : list Phase.Result)
    (r : Phase.Result) :
  In r rs -> field r = NaN ->
  forall acc, fold_left (fun sum r => Num.add sum (field r)) rs acc = NaN.
Proof.
  intros Hin Hnan. induction rs as [|x rs IH]; intros acc; [destruct Hin|].
  cbn [fold_left]. destruct Hin as [->|Hin].
  - rewrite Hnan, add_NaN_r. apply sum_from_NaN.
  - apply IH. exact Hin.
Qed.

(** X16. One phase whose [errorRate] is NaN, as a phase without requests has
    it, turns the average error rate of its framework in the comparison
    report into NaN, whichever side it is on. *)
Theorem report_error_rate_poisoned_by_NaN
    (rs other : list Phase.Result) (r : Phase.Result) :
  In r rs ->
  Phase.errorRate r = NaN ->
  springErrors (generateComparisonReport rs other) = NaN /\
  bunErrors (generateComparisonReport other rs) = NaN.
Proof.
  intros Hin Hnan. unfold generateComparisonReport. cbn [springErrors bunErrors].
  unfold averageOf. rewrite (sum_with_NaN Phase.errorRate rs r Hin Hnan). split; reflexivity.
Qed.

Lemma report_error_rate_poisoned_by_NaN_witness :
  springErrors
    (generateComparisonReport
       [snd (summarize (state (phaseOf (newLoadTester defaultConfig) 5 oneRequestEnv))
               5 "5TPS");
        snd (summarize (state (phaseOf (newLoadTester briefConfig) 10 lateEnv))
               10 "10TPS")]
       [])
  = NaN.
Proof.
  apply (report_error_rate_poisoned_by_NaN
           [snd (summarize (state (phaseOf (newLoadTester defaultConfig) 5 oneRequestEnv))
                   5 "5TPS");
            snd (summarize (state (phaseOf (newLoadTester briefConfig) 10 lateEnv))
                   10 "10TPS")]
           []
           (snd (summarize (state (phaseOf (newLoadTester briefConfig) 10 lateEnv))
                   10 "10TPS"))).
  - right. left. reflexivity.
  - reflexivity.
Defined.

Lemma comparisonTable_length (springResults bunResults : list Phase.Result) :
  List.length (comparisonTable springResults bunResults)
  = Nat.min (List.length springResults) (List.length bunResults).
Proof.
  revert bunResults. induction springResults as [|s rest IH]; intros [|b bunRest];
    try reflexivity.
  simpl. now rewrite IH.
Qed.

Lemma improvementOf_finite (a b : Q) :
  (0 < a)%Q ->
  exists q, improvementOf (Fin a) (Fin b) = Fin q /\ q == (a - b) / a * 100.
Proof.
  intros Ha. unfold improvementOf, Num.sub, Num.neg, Num.add, Num.of_Q, Num.div.
  assert (Hz : Num.is_zero a = false).
  { unfold Num.is_zero. destruct (Qeq_bool a 0) eqn:E; [|reflexivity].
    apply Qeq_bool_eq in E. lra. }
  rewrite Hz. unfold Num.of_Q, Num.mul, Num.of_Z. eexists. split; [reflexivity|].
  rewrite !Qred_correct. change (inject_Z 100) with 100%Q. field. lra.
Qed.

Lemma improvementOf_zero_base (a b : Q) :
  a == 0 ->
  improvementOf (Fin a) (Fin b) = NaN \/
  improvementOf (Fin a) (Fin b) = PInf \/
  improvementOf (Fin a) (Fin b) = NInf.
Proof.
  intros Ha. unfold improvementOf, Num.sub, Num.neg, Num.add, Num.of_Q, Num.div.
  assert (Hz : Num.is_zero a = true) by (apply Qeq_eq_bool; exact Ha).
  rewrite Hz.
  destruct (Num.is_zero (Qred (a + Qred (- b)))); [left; reflexivity|].
  destruct (Num.is_neg (Qred (a + Qred (- b)))); simpl; auto.
Qed.

(** X17. The overall improvement in the report, for finite averages [a] of
    the first framework and [b] of the second: when [a] is positive it is
    [(a - b) / a * 100], positive exactly when [b] is below [a]; when [a]
    is 0 it is not a finite number. The detailed table has as many lines as
    the shorter of the two result lists. *)
Theorem report_improvement
    (springResults bunResults : list Phase.Result) (a b : Q) :
  springAvg (generateComparisonReport springResults bunResults) = Fin a ->
  bunAvg (generateComparisonReport springResults bunResults) = Fin b ->
  let report := generateComparisonReport springResults bunResults in
  ((0 < a)%Q ->
   exists q, avgImprovement report = Fin q /\
             q == (a - b) / a * 100 /\
             ((0 < q)%Q <-> (b < a)%Q)) /\
  (a == 0 -> forall q, avgImprovement report <> Fin q) /\
  List.length (comparisonRows report)
    = Nat.min (List.length springResults) (List.length bunResults).
Proof.
  intros Ha Hb report.
  assert (E : avgImprovement report = improvementOf (Fin a) (Fin b)).
  { unfold report, generateComparisonReport in *. cbn [avgImprovement springAvg bunAvg] in *.
    now rewrite Ha, Hb. }
  split; [|split].
  - intros Hpos. destruct (improvementOf_finite a b Hpos) as (q & Hq & Eq).
    exists q. rewrite E. split; [exact Hq|]. split; [exact Eq|].
    rewrite Eq. split; intros H.
    + assert (Hd : (0 < (a - b) / a)%Q) by lra.
      assert (Hm : ((a - b) / a * a == a - b)%Q) by (field; lra).
      assert (0 < (a - b) / a * a)%Q by (apply Qmult_lt_0_compat; assumption). lra.
    + assert (Hd : (0 < (a - b) / a)%Q).
      { apply Qlt_shift_div_l; [exact Hpos | lra]. }
      lra.
  - intros Hzero q. rewrite E.
    destruct (improvementOf_zero_base a b Hzero) as [H|[H|H]]; rewrite H; discriminate.
  - apply comparisonTable_length.
Qed.

Lemma report_improvement_witness :
  exists q,
    avgImprovement
      (generateComparisonReport
         [snd (summarize (state (phaseOf (newLoadTester defaultConfig) 5 oneRequestEnv))
                 5 "5TPS")]
         [snd (summarize (state (phaseOf (newLoadTester defaultConfig) 5 mixedEnv))
                 5 "5TPS")])
    = Fin q /\ q == (12 - 4) / 12 * 100 /\ ((0 < q)%Q <-> (4 < 12)%Q).
Proof.
  apply (report_improvement
           [snd (summarize (state (phaseOf (newLoadTester defaultConfig) 5 oneRequestEnv))
                   5 "5TPS")]
           [snd (summarize (state (phaseOf (newLoadTester defaultConfig) 5 mixedEnv))
                   5 "5TPS")]
           12 4 eq_refl eq_refl).
  unfold Qlt. simpl. lia.
Defined.

(** ** Statistics are always defined *)

(** X3. Whatever [this.responseTimes] holds, sorted or not, empty or not,
    [calculateStats] returns a finite average and defined values for the
    minimum, the maximum and the three percentiles; so the [toFixed] calls
    of [printResults] always have a number to format. *)
Theorem calculateStats_always_defined (t : LoadTester) :
  exists avg mn mx a b c,
    calculateStats t
    = {| avgResponseTime := Fin avg;
         minResponseTime := Some mn;
         maxResponseTime := Some mx;
         p50ResponseTime := Some a;
         p95ResponseTime := Some b;
         p99ResponseTime := Some c |}.
Proof.
  destruct (responseTimes t) as [|x rest] eqn:E.
  - exists 0%Q, 0%Q, 0%Q, 0%Q, 0%Q, 0%Q. unfold calculateStats. rewrite E. reflexivity.
  - assert (Hne : responseTimes t <> []) by (rewrite E; discriminate).
    rewrite (calculateStats_nonempty t Hne). rewrite !percentile_reads_index.
    pose proof (nonempty_length _ Hne) as Hn.
    set (l := responseTimes t) in *. set (n := arrayLength l) in *.
    assert (Hlen : n = Z.of_nat (List.length l)) by reflexivity.
    pose proof (percentileIndex_range n 50 Hn).
    pose proof (percentileIndex_range n 95 Hn).
    pose proof (percentileIndex_range n 99 Hn).
    destruct (at_index_some l 0) as (mn & Emn & _); [lia|].
    destruct (at_index_some l (n - 1)) as (mx & Emx & _); [lia|].
    destruct (at_index_some l (percentileIndex n 50)) as (a & Ea & _); [lia|].
    destruct (at_index_some l (percentileIndex n 95)) as (b & Eb & _); [lia|].
    destruct (at_index_some l (percentileIndex n 99)) as (c & Ec & _); [lia|].
    assert (Hz : Num.is_zero (inject_Z n) = false).
    { unfold Num.is_zero. destruct (Qeq_bool (inject_Z n) 0) eqn:Eq; [|reflexivity].
      apply Qeq_bool_eq in Eq. unfold Qeq in Eq. simpl in Eq. lia. }
    exists (Qred (Qred (sumOf l) / inject_Z n)), mn, mx, a, b, c.
    rewrite Emn, Emx, Ea, Eb, Ec.
    unfold Num.div, Num.of_Q, Num.of_Z. rewrite Hz. reflexivity.
Qed.

(** ** The pre-flight check against the tester's classification *)




